(** * The fetch server: retrying fetcher, content classifier and paginator

    A shallow embedding of [src/fetch/src/index.ts] ([FetchSchema],
    [call_fetch], the tool dispatcher) and of [src/fetch/src/utils.ts]
    ([fetch_url], [extractContentFromHtml]), followed by the properties of
    the fetch / classify / paginate pipeline.

    Conventions of the embedding.
    - A JavaScript string is a [string]; one [ascii] stands for one code
      unit.  [Js.length], [Js.substring], [Js.includes] and
      [Js.toLowerCase] follow the ECMAScript definitions of [length],
      [String.prototype.substring], [includes] and [toLowerCase].
    - A JavaScript number that a caller can pass ([start_index],
      [max_length], [timeout], [retries]) is given by its value, a
      rational ([Js.number]): the schema asks for a number, not for an
      integer, so fractions such as 2.5 are values of the model.
      Comparisons are exact; a sum or a difference is the exact result
      rounded to IEEE-754 binary64, as [+] and [-] are; inside a template
      literal an integer prints as its digits and a fraction as the
      shortest decimal that denotes it, as [Number::toString] prints
      them.  Lengths, the loop counter and status codes are integers
      ([Z]) because they are integers in the source.
    - [Math.round(shown / total * 100)] is evaluated in binary64 with the
      executable specification of the standard library ([SFdiv], [SFmul]
      at precision 53).
    - The network, the pause between attempts and the HTML simplifier are
      effects: [fetch_url] and [call_fetch] return their value together with
      the list of [Event]s they caused, in order. *)

From Stdlib Require Import ZArith QArith Qround Lia Lqa List Bool String Ascii.
From Stdlib Require Import DecimalString SpecFloat.
Import ListNotations.

Local Open Scope string_scope.
Local Open Scope Z_scope.

(* ================================================================== *)
(** * JavaScript primitives used by the server *)
(* ================================================================== *)

Module Js.

(** [s.length] *)
Definition length (s : string) : Z := Z.of_nat (String.length s).

(** A string is falsy exactly when it is empty: [!s]. *)
Definition truthy (s : string) : bool :=
  match s with
  | EmptyString => false
  | String _ _ => true
  end.

(** ** Numbers *)

(** A finite number, by its value.  The numbers that reach the server
    are binary64 values; [round64] below gives the binary64 value nearest
    to a rational. *)
Definition number : Type := Q.

(** An integer as a number. *)
Definition int (z : Z) : number := inject_Z z.

(** [x <= y], [x < y], [x >= y], [x > y] and [x === y] *)
Definition leb (x y : number) : bool := Qle_bool x y.
Definition ltb (x y : number) : bool := negb (Qle_bool y x).
Definition geb (x y : number) : bool := Qle_bool y x.
Definition gtb (x y : number) : bool := negb (Qle_bool x y).
Definition eqb (x y : number) : bool := Qeq_bool x y.

(** [ToIntegerOrInfinity]: the fraction is dropped, towards zero. *)
Definition trunc (x : number) : Z :=
  if Qle_bool 0 x then Qfloor x else Qceiling x.

(** ** Strings *)

(** [s] without its first [n] code units. *)
Fixpoint drop (n : nat) (s : string) : string :=
  match n, s with
  | O, _ => s
  | S _, EmptyString => EmptyString
  | S n', String _ s' => drop n' s'
  end.

(** The first [n] code units of [s]. *)
Fixpoint take (n : nat) (s : string) : string :=
  match n, s with
  | O, _ => EmptyString
  | S _, EmptyString => EmptyString
  | S n', String c s' => String c (take n' s')
  end.

(** [min(max(x, 0), len)], the clamping step of [substring]. *)
Definition clamp (len x : Z) : Z := Z.min (Z.max x 0) len.

(** [s.substring(start, end)]: both arguments are converted to integers,
    clamped to [0 .. s.length], swapped when [start > end], and the code
    units in between are returned. *)
Definition substring (s : string) (start stop : number) : string :=
  let len := length s in
  let finalStart := clamp len (trunc start) in
  let finalEnd := clamp len (trunc stop) in
  let from := Z.min finalStart finalEnd in
  let to := Z.max finalStart finalEnd in
  take (Z.to_nat (to - from)) (drop (Z.to_nat from) s).

(** [s.includes(needle)] *)
Fixpoint includes (s needle : string) {struct s} : bool :=
  String.prefix needle s
  || match s with
     | EmptyString => false
     | String _ s' => includes s' needle
     end.

(** Lower-casing of one code unit.  Only [A]..[Z] map to ASCII letters;
    no code unit outside ASCII lower-cases to a character of the needles
    the server searches for, so the other code units are left alone. *)
Definition lower (c : ascii) : ascii :=
  let n := nat_of_ascii c in
  if (Nat.leb 65 n && Nat.leb n 90)%bool then ascii_of_nat (n + 32) else c.

(** [s.toLowerCase()] *)
Fixpoint toLowerCase (s : string) : string :=
  match s with
  | EmptyString => EmptyString
  | String c s' => String (lower c) (toLowerCase s')
  end.

(** The line feed written [\n] in the source. *)
Definition LF : string := String (ascii_of_nat 10) EmptyString.

(** ** Binary64 arithmetic *)

Definition prec : Z := 53.
Definition emax : Z := 1024.

(** An integer as a binary64 number: mantissa and exponent 0 denote it
    exactly ([SFdiv] and [SFmul] normalise their result). *)
Definition of_int (z : Z) : spec_float :=
  match z with
  | Z0 => S754_zero false
  | Zpos p => S754_finite false p 0
  | Zneg p => S754_finite true p 0
  end.

(** A number as a binary64 number: an integer as it is, a fraction as
    the binary64 number nearest to it (ties to even). *)
Definition to_binary64 (x : number) : spec_float :=
  match Qden x with
  | xH => of_int (Qnum x)
  | d => SFdiv prec emax (of_int (Qnum x)) (of_int (Zpos d))
  end.

(** The value of a binary64 number.  An overflow is kept as 2^1024: the
    server only hands it to [substring], which clamps it like
    [Infinity]. *)
Definition of_binary64 (f : spec_float) : number :=
  match f with
  | S754_zero _ => inject_Z 0
  | S754_finite s m e =>
      let n := if s then Zneg m else Zpos m in
      match e with
      | Z0 => inject_Z n
      | Zpos _ => inject_Z (n * 2 ^ e)
      | Zneg k => n # (2 ^ k)
      end
  | S754_infinity s => inject_Z (if s then - 2 ^ 1024 else 2 ^ 1024)
  | S754_nan => inject_Z 0
  end.

(** Rounding to binary64.  An integer is kept as it is: the integers
    that the server adds are lengths, positions in a text and counts, far
    below 2^53, and binary64 holds them exactly. *)
Definition round64 (x : number) : number := of_binary64 (to_binary64 x).

(** [x + y] and [x - y]: the exact result, rounded. *)
Definition add (x y : number) : number := round64 (x + y)%Q.
Definition sub (x y : number) : number := round64 (x - y)%Q.

(** ** Numbers inside a template literal *)

(** An integer below 10^21 (a length, a position in a text, a status
    code, a count) prints as its digits. *)
Definition toString (z : Z) : string := NilZero.string_of_int (Z.to_int z).

(** [n] zeros. *)
Fixpoint zeros (n : nat) : string :=
  match n with
  | O => ""
  | S n' => String "0" (zeros n')
  end.

(** The [n] with [10^(n-1) <= a / d < 10^n], for [0 < a] and [0 < d]. *)
Fixpoint magnitude_up (fuel : nat) (a d n : Z) : Z :=
  match fuel with
  | O => n
  | S fuel' => if a <? d then n else magnitude_up fuel' a (10 * d) (n + 1)
  end.

Fixpoint magnitude_down (fuel : nat) (a d n : Z) : Z :=
  match fuel with
  | O => n
  | S fuel' => if d <=? a then n else magnitude_down fuel' (10 * a) d (n - 1)
  end.

Definition magnitude (a d : Z) : Z :=
  if d <=? a then magnitude_up 400 a d 0 else magnitude_down 400 (10 * a) d 0.

(** [10^e] as a number, for any integer [e]. *)
Definition pow10 (e : Z) : number :=
  match e with
  | Zneg k => 1 # (10 ^ k)
  | _ => inject_Z (10 ^ e)
  end.

(** The shortest decimal that denotes the positive binary64 number [x]:
    the least [k] and the [s] with [k] digits such that [s * 10^(n-k)]
    rounds to [x], the closest to [x] if there are two.  The result is
    [(s, n)].  After 17 digits the search stops. *)
Fixpoint shortest (fuel : nat) (x : number) (n k : Z) : Z * Z :=
  let scaled := (x * pow10 (k - n))%Q in
  let lo := Qfloor scaled in
  let hi := lo + 1 in
  let denotes (s : Z) : bool :=
    Qeq_bool (round64 (inject_Z s * pow10 (n - k))%Q) x in
  let closest : Z :=
    match (scaled - inject_Z lo ?= inject_Z hi - scaled)%Q with
    | Lt => lo
    | Gt => hi
    | Eq => if Z.even lo then lo else hi
    end in
  let pick (s : Z) : Z * Z :=
    if s =? 10 ^ k then (10 ^ (k - 1), n + 1) else (s, n) in
  match fuel with
  | O => pick closest
  | S fuel' =>
      match denotes lo, denotes hi with
      | true, true => pick closest
      | true, false => pick lo
      | false, true => pick hi
      | false, false => shortest fuel' x n (k + 1)
      end
  end.

(** The digits [ds] with the decimal point after the first [n] of them,
    as [Number::toString] lays them out. *)
Definition layout (ds : string) (n : Z) : string :=
  let k := Z.of_nat (String.length ds) in
  if (k <=? n) && (n <=? 21) then ds ++ zeros (Z.to_nat (n - k))
  else if (0 <? n) && (n <=? 21) then
    String.substring 0 (Z.to_nat n) ds ++ "."
    ++ String.substring (Z.to_nat n) (Z.to_nat (k - n)) ds
  else if (-6 <? n) && (n <=? 0) then "0." ++ zeros (Z.to_nat (- n)) ++ ds
  else
    (if k =? 1 then ds
     else String.substring 0 1 ds ++ "."
          ++ String.substring 1 (Z.to_nat (k - 1)) ds)
    ++ "e" ++ (if n - 1 <? 0 then "-" else "+") ++ toString (Z.abs (n - 1)).

(** A number inside a template literal: an integer prints as its
    digits; a fraction prints as the shortest decimal that denotes
    it. *)
Definition number_toString (x : number) : string :=
  let a := Qnum x in
  let d := Zpos (Qden x) in
  if Z.rem a d =? 0 then toString (Z.quot a d)
  else
    let (s, n) := shortest 16 (Z.abs a # Qden x) (magnitude (Z.abs a) d) 1 in
    (if a <? 0 then "-" else "") ++ layout (toString s) n.

(** What [Math.round] can return. *)
Inductive rounded : Type :=
| Finite (z : Z)
| NotANumber
| Infinite (negative : bool).

(** [Math.round(x)]: the integer closest to [x], ties going up, that is
    [floor (x + 1/2)] computed exactly; NaN and the infinities are
    returned unchanged. *)
Definition Math_round (x : spec_float) : rounded :=
  match x with
  | S754_zero _ => Finite 0
  | S754_nan => NotANumber
  | S754_infinity s => Infinite s
  | S754_finite s m e =>
      let n := if s then Zneg m else Zpos m in
      Finite match e with
             | Zneg k => (2 * n + 2 ^ Zpos k) / 2 ^ (Zpos k + 1)
             | _ => n * 2 ^ e
             end
  end.

(** The result of [Math.round] inside a template literal. *)
Definition rounded_toString (r : rounded) : string :=
  match r with
  | Finite z => toString z
  | NotANumber => "NaN"
  | Infinite false => "Infinity"
  | Infinite true => "-Infinity"
  end.

End Js.

(* ================================================================== *)
(** * The paginator (index.ts, lines 86-110) *)
(* ================================================================== *)

(** [Math.round(shown / originalLength * 100)] *)
Definition percentShown (shown : Js.number) (originalLength : Z)
  : Js.rounded :=
  Js.Math_round
    (SFmul Js.prec Js.emax
       (SFdiv Js.prec Js.emax (Js.to_binary64 shown)
          (Js.of_int originalLength))
       (Js.of_int 100)).

Definition NO_MORE_CONTENT : string := "<e>No more content available.</e>".

Definition truncation_notice (percent : Js.rounded) (nextStart : Js.number)
  : string :=
  Js.LF ++ Js.LF ++ "<e>Content truncated (" ++ Js.rounded_toString percent
  ++ "% shown). Call the fetch tool with start_index="
  ++ Js.number_toString nextStart ++ " to get more content.</e>".

Definition continuation_notice (startIndex : Js.number)
    (percent : Js.rounded) : string :=
  Js.LF ++ Js.LF ++ "<e>Showing content from index "
  ++ Js.number_toString startIndex
  ++ " (" ++ Js.rounded_toString percent ++ "% of total).</e>".

(** The value of [content] after the pagination block of [call_fetch], as a
    function of its value before the block and of the two cursor
    parameters. *)
Definition paginate (content : string) (startIndex maxLength : Js.number)
  : string :=
  let originalLength := Js.length content in
  if Js.geb startIndex (Js.int originalLength) then NO_MORE_CONTENT
  else
    let truncatedContent :=
      Js.substring content startIndex (Js.add startIndex maxLength) in
    if negb (Js.truthy truncatedContent) then NO_MORE_CONTENT
    else
      let actualContentLength := Js.length truncatedContent in
      let remainingContent :=
        Js.sub (Js.int originalLength)
          (Js.add startIndex (Js.int actualContentLength)) in
      if Js.eqb (Js.int actualContentLength) maxLength
         && Js.gtb remainingContent (Js.int 0) then
        let nextStart := Js.add startIndex (Js.int actualContentLength) in
        let percent :=
          percentShown (Js.add startIndex (Js.int actualContentLength))
            originalLength in
        truncatedContent ++ truncation_notice percent nextStart
      else if Js.gtb startIndex (Js.int 0) then
        let percent :=
          percentShown (Js.add startIndex (Js.int actualContentLength))
            originalLength in
        truncatedContent ++ continuation_notice startIndex percent
      else truncatedContent.

(** ** The paginated view as data

    The same block, returning what the string is assembled from: the slice
    and the status suffix.  [paginate_render] below shows that [paginate]
    is the rendering of this view. *)

Inductive Notice : Type :=
| Truncated (percent : Js.rounded) (nextStart : Js.number)
| Continuation (startIndex : Js.number) (percent : Js.rounded)
| NoNotice.

Inductive PaginatedView : Type :=
| NoMoreContent
| Page (slice : string) (notice : Notice).

Definition paginate_view (content : string)
    (startIndex maxLength : Js.number) : PaginatedView :=
  let originalLength := Js.length content in
  if Js.geb startIndex (Js.int originalLength) then NoMoreContent
  else
    let truncatedContent :=
      Js.substring content startIndex (Js.add startIndex maxLength) in
    if negb (Js.truthy truncatedContent) then NoMoreContent
    else
      let actualContentLength := Js.length truncatedContent in
      let remainingContent :=
        Js.sub (Js.int originalLength)
          (Js.add startIndex (Js.int actualContentLength)) in
      if Js.eqb (Js.int actualContentLength) maxLength
         && Js.gtb remainingContent (Js.int 0) then
        Page truncatedContent
          (Truncated
             (percentShown (Js.add startIndex (Js.int actualContentLength))
                originalLength)
             (Js.add startIndex (Js.int actualContentLength)))
      else if Js.gtb startIndex (Js.int 0) then
        Page truncatedContent
          (Continuation startIndex
             (percentShown (Js.add startIndex (Js.int actualContentLength))
                originalLength))
      else Page truncatedContent NoNotice.

Definition render_notice (n : Notice) : string :=
  match n with
  | Truncated percent nextStart => truncation_notice percent nextStart
  | Continuation startIndex percent => continuation_notice startIndex percent
  | NoNotice => ""
  end.

Definition render (v : PaginatedView) : string :=
  match v with
  | NoMoreContent => NO_MORE_CONTENT
  | Page slice notice => slice ++ render_notice notice
  end.

(** The cursor a view reports for the next call, if any. *)
Definition next_start_index (v : PaginatedView) : option Js.number :=
  match v with
  | Page _ (Truncated _ nextStart) => Some nextStart
  | _ => None
  end.

(** ** A reader that follows the reported cursor

    The reader calls the paginator, keeps the slice, and calls again at
    the reported [start_index] as long as one is reported.  It returns the
    slices in order and the position just after the last slice it read.
    [fuel] bounds the number of calls; [None] means the bound was hit. *)
Fixpoint read_all (fuel : nat) (content : string)
    (startIndex maxLength : Js.number) : option (list string * Js.number) :=
  match fuel with
  | O => None
  | S fuel' =>
      match paginate_view content startIndex maxLength with
      | NoMoreContent => Some ([], startIndex)
      | Page slice notice =>
          match next_start_index (Page slice notice) with
          | Some nextStart =>
              match read_all fuel' content nextStart maxLength with
              | Some (slices, stop) => Some (slice :: slices, stop)
              | None => None
              end
          | None =>
              Some ([slice], Js.add startIndex (Js.int (Js.length slice)))
          end
      end
  end.

(** The code units of [text] at the positions [from <= i < to]. *)
Definition code_units (text : string) (from to : Z) : string :=
  Js.take (Z.to_nat (to - from)) (Js.drop (Z.to_nat from) text).

(** The slices put back together, first slice first. *)
Definition concat_slices (slices : list string) : string :=
  fold_right String.append "" slices.

(* ================================================================== *)
(** * Effects *)
(* ================================================================== *)

(** What a call does to the outside world, in the order it does it. *)
Inductive Event : Type :=
| Request (url userAgent : string) (timeout : Js.number) (attempt : Z)
    (** [fetch(url, {headers, signal})] under a fresh [timeout] ms abort
        timer, in iteration [attempt] of the retry loop *)
| Pause (ms : Z)
    (** [await new Promise(resolve => setTimeout(resolve, ms))] *)
| Simplify (html : string)
    (** a call of [extractContentFromHtml] *).

(** A computation returns its value and the events it caused.  The
    [console.error] diagnostics are not part of the trace. *)
Definition Eff (A : Type) : Type := (A * list Event)%type.

Definition ret {A : Type} (a : A) : Eff A := (a, []).

Definition bind {A B : Type} (m : Eff A) (k : A -> Eff B) : Eff B :=
  let (a, t1) := m in
  let (b, t2) := k a in
  (b, (t1 ++ t2)%list).

Definition emit (e : Event) : Eff unit := (tt, [e]).

Definition value {A : Type} (m : Eff A) : A := fst m.
Definition trace {A : Type} (m : Eff A) : list Event := snd m.

Declare Scope eff_scope.
Delimit Scope eff_scope with eff.
Notation "x <- m ;; k" := (bind m (fun x => k))
  (at level 61, m at next level, right associativity) : eff_scope.
Notation "m ;;; k" := (bind m (fun _ => k))
  (at level 61, right associativity) : eff_scope.

(* ================================================================== *)
(** * The environment of a call *)
(* ================================================================== *)

(** An [Error] object, as far as the code looks at it. *)
Record JsError : Type := mkError { name : string; message : string }.

(** A thrown value: an [Error] instance or anything else. *)
Inductive Thrown : Type :=
| ErrorObject (e : JsError)
| OtherValue.

(** The result of [try { ... }]. *)
Inductive Try (A : Type) : Type :=
| Ok (a : A)
| Throw (t : Thrown).
Arguments Ok {A} a.
Arguments Throw {A} t.

(** How one attempt ends: the server answered (status, [content-type]
    header if present, decoded body), or [fetch] / [response.text()]
    rejected (network failure, or the abort raised by the timeout timer). *)
Inductive FetchOutcome : Type :=
| Responded (status : Z) (contentTypeHeader : option string) (body : string)
| Rejected (thrown : Thrown).

(** The object returned by [Readability.parse()]; an absent field is the
    empty string (both are falsy). *)
Record Article : Type :=
  mkArticle { title : string; articleContent : string; siteName : string }.

(** Everything [call_fetch] gets from outside: the network, seen as the
    outcome of each attempt of the call, and the JSDOM / Readability /
    Turndown libraries. *)
Record Environment : Type := mkEnvironment {
  net : Z -> FetchOutcome;
  Readability_parse : string -> Try (option Article);
  document_title : string -> string;
  turndown : string -> Try string
}.

(* ================================================================== *)
(** * The retrying fetcher (utils.ts, fetch_url) *)
(* ================================================================== *)

(** [response.ok] *)
Definition response_ok (status : Z) : bool :=
  (200 <=? status) && (status <=? 299).

(** [error instanceof Error ? error : new Error('Unknown error')] *)
Definition as_error (t : Thrown) : JsError :=
  match t with
  | ErrorObject e => e
  | OtherValue => mkError "Error" "Unknown error"
  end.

Definition isNetworkError (lastError : JsError) : bool :=
  negb (Js.includes (message lastError) "HTTP error").

Definition isTimeout (lastError : JsError) : bool :=
  String.eqb (name lastError) "AbortError".

(** The statements after the loop. *)
Definition exhausted (retries : Js.number) (lastError : option JsError)
  : string * string :=
  match lastError with
  | Some e =>
      let message :=
        if String.eqb (name e) "AbortError" then "Request timed out"
        else message e in
      ("<e>Failed to fetch: " ++ message ++ " after "
         ++ Js.number_toString (Js.add retries (Js.int 1))
         ++ " attempts</e>", "text/plain")
  | None => ("<e>Failed to fetch: Unknown error</e>", "text/plain")
  end.

Local Open Scope eff_scope.

(** The [for] loop from iteration [attempt] on, followed by the statements
    after it.  The loop counter starts at 0 and is incremented, so it is
    an integer.  [fuel] bounds the number of iterations; the result [None]
    (the [null] of the declared return type) is what hitting the bound
    gives, and [fetch_url_returns] shows that it never happens. *)
Fixpoint fetch_loop (env : Environment) (url user_agent : string)
    (timeout retries : Js.number) (fuel : nat) (attempt : Z)
    (lastError : option JsError) {struct fuel}
  : Eff (option (string * string)) :=
  if Js.leb (Js.int attempt) retries then
    match fuel with
    | O => ret None
    | S fuel' =>
        let catch (e : JsError) : Eff (option (string * string)) :=
          if Js.ltb (Js.int attempt) retries
             && (isNetworkError e || isTimeout e) then
            emit (Pause 1000) ;;;
            fetch_loop env url user_agent timeout retries fuel'
              (attempt + 1) (Some e)
          else ret (Some (exhausted retries (Some e))) in
        emit (Request url user_agent timeout attempt) ;;;
        match net env attempt with
        | Responded status header body =>
            if negb (response_ok status) then
              catch (mkError "Error"
                       ("HTTP error! status: " ++ Js.toString status))
            else
              let contentType :=
                match header with
                | Some h => if Js.truthy h then h else ""
                | None => ""
                end in
              ret (Some (body, contentType))
        | Rejected thrown => catch (as_error thrown)
        end
    end
  else ret (Some (exhausted retries lastError)).

(** The loop admits the attempts [0 .. floor retries]. *)
Definition fetch_url (env : Environment) (url user_agent : string)
    (timeout retries : Js.number) : Eff (option (string * string)) :=
  fetch_loop env url user_agent timeout retries
    (Z.to_nat (Qfloor retries + 1)) 0 None.

(* ================================================================== *)
(** * The article simplifier (utils.ts, extractContentFromHtml) *)
(* ================================================================== *)

(** The [catch] block. *)
Definition simplification_error (t : Thrown) : string :=
  match t with
  | ErrorObject e =>
      "<e>Page failed to be simplified from HTML: " ++ message e ++ "</e>"
  | OtherValue => "<e>Page failed to be simplified from HTML</e>"
  end.

(** [a || b] on strings. *)
Definition or_else (a b : string) : string := if Js.truthy a then a else b.

Definition extractContentFromHtml (env : Environment) (html : string)
  : string :=
  match Readability_parse env html with
  | Throw t => simplification_error t
  | Ok None => "<e>Page failed to be simplified from HTML</e>"
  | Ok (Some article) =>
      if negb (Js.truthy (articleContent article)) then
        "<e>Page failed to be simplified from HTML</e>"
      else
        let documentTitle :=
          or_else (title article)
            (or_else (document_title env html) "Untitled Page") in
        let siteName := or_else (siteName article) "" in
        match turndown env (articleContent article) with
        | Throw t => simplification_error t
        | Ok markdownContent =>
            let titleSection :=
              "# " ++ documentTitle
              ++ (if Js.truthy siteName then " | " ++ siteName else "")
              ++ Js.LF ++ Js.LF in
            titleSection ++ markdownContent
        end
  end.

(* ================================================================== *)
(** * The content classifier and the tool (index.ts, call_fetch) *)
(* ================================================================== *)

Definition USER_AGENT : string := "fetch-app/1.0".

(** A tool result: [{ content: [ { type, text }, ... ] }]. *)
Record ContentBlock : Type := mkBlock { type : string; text : string }.
Record ToolResult : Type := mkResult { content : list ContentBlock }.

Definition text_result (t : string) : ToolResult :=
  mkResult [ mkBlock "text" t ].

Definition isBinary (contentType : string) : bool :=
  Js.truthy contentType
  && (Js.includes contentType "image/"
      || Js.includes contentType "audio/"
      || Js.includes contentType "video/"
      || Js.includes contentType "application/"
      || Js.includes contentType "font/").

Definition isPageHtml (pageRaw contentType : string) : bool :=
  Js.includes
    (Js.toLowerCase (Js.substring pageRaw (Js.int 0) (Js.int 100))) "<html"
  || Js.includes (Js.toLowerCase contentType) "text/html"
  || negb (Js.truthy contentType).

Definition binary_refusal (contentType : string) : string :=
  "<e>This URL contains binary content (" ++ contentType
  ++ ") which cannot be displayed as text. Use raw=true to get the binary data.</e>".

(** The final template literal. *)
Definition envelope (contentType : string) (originalLength : Z)
    (url content : string) : string :=
  let contentSizeInfo :=
    "Content size: " ++ Js.toString originalLength ++ " characters" in
  "Content-Type: " ++ contentType ++ Js.LF ++ contentSizeInfo ++ Js.LF
  ++ "Contents of " ++ url ++ ":" ++ Js.LF ++ Js.LF ++ content.

(** [call_fetch] from the statement after [await fetch_url(...)] on. *)
Definition after_fetch (env : Environment) (url : string)
    (maxLength startIndex : Js.number) (raw : bool)
    (response : option (string * string)) : Eff ToolResult :=
  match response with
  | None => ret (text_result "Failed to fetch url")
  | Some (pageRaw, contentType) =>
      if negb (Js.truthy pageRaw) then
        ret (text_result "Failed to get page text")
      else if isBinary contentType && negb raw then
        ret (text_result (binary_refusal contentType))
      else
        content <-
          (if isPageHtml pageRaw contentType && negb raw then
             emit (Simplify pageRaw) ;;;
             ret (extractContentFromHtml env pageRaw)
           else ret pageRaw) ;;
        let originalLength := Js.length content in
        ret (text_result
               (envelope contentType originalLength url
                  (paginate content startIndex maxLength)))
  end.

Definition call_fetch (env : Environment) (url : string)
    (maxLength startIndex : Js.number) (raw : bool)
    (timeout retries : Js.number) : Eff ToolResult :=
  response <- fetch_url env url USER_AGENT timeout retries ;;
  after_fetch env url maxLength startIndex raw response.

(** ** The three-way classification

    [call_fetch] decides with the two flags above; read together they are
    the classifier of the design: binary first, then HTML, then plain
    text. *)
Inductive ContentClass : Type := Binary | Html | PlainText.

Definition classify (pageRaw contentType : string) : ContentClass :=
  if isBinary contentType then Binary
  else if isPageHtml pageRaw contentType then Html
  else PlainText.

(** The classifier as the design document words it: the content type is
    searched for [text/html] as it stands. *)
Definition classify_as_documented (pageRaw contentType : string)
  : ContentClass :=
  if Js.includes contentType "image/"
     || Js.includes contentType "audio/"
     || Js.includes contentType "video/"
     || Js.includes contentType "application/"
     || Js.includes contentType "font/"
  then Binary
  else if Js.includes
            (Js.toLowerCase (Js.substring pageRaw (Js.int 0) (Js.int 100)))
            "<html"
          || Js.includes contentType "text/html"
          || String.eqb contentType ""
  then Html
  else PlainText.

(** ** Sample environments *)

(** No HTML library is reached: parsing yields no article. *)
Definition no_article (outcomes : Z -> FetchOutcome) : Environment :=
  mkEnvironment outcomes (fun _ => Ok None) (fun _ => "") (fun s => Ok s).

(** Every attempt ends the same way. *)
Definition always (o : FetchOutcome) : Environment := no_article (fun _ => o).

Definition network_down : FetchOutcome :=
  Rejected (ErrorObject (mkError "TypeError" "fetch failed")).

Definition timed_out : FetchOutcome :=
  Rejected (ErrorObject (mkError "AbortError" "This operation was aborted")).

(** The numbers 2.5, 0.5, 1.5 and 8.5. *)
Definition two_and_a_half : Js.number := 5 # 2.
Definition one_half : Js.number := 1 # 2.
Definition one_and_a_half : Js.number := 3 # 2.
Definition eight_and_a_half : Js.number := 17 # 2.


(* ================================================================== *)
(** * Vocabulary of the properties *)
(* ================================================================== *)

(** An attempt that ends without a response and that the loop retries:
    the abort raised by the timeout timer, or a rejection whose text the
    loop does not take for its own [HTTP error] (a thrown value that is no
    [Error] becomes [Unknown error]). *)
Inductive NetworkFailure : FetchOutcome -> Prop :=
| timeout_failure (msg : string) :
    NetworkFailure (Rejected (ErrorObject (mkError "AbortError" msg)))
| network_error (name msg : string) :
    Js.includes msg "HTTP error" = false ->
    NetworkFailure (Rejected (ErrorObject (mkError name msg)))
| thrown_non_error :
    NetworkFailure (Rejected OtherValue).

(** [start], [start + 1], ... ([n] integers). *)
Fixpoint Zseq (start : Z) (n : nat) : list Z :=
  match n with
  | O => []
  | S n' => start :: Zseq (start + 1) n'
  end.

(** The elements of [l] with [sep] between consecutive ones. *)
Fixpoint intersperse {A : Type} (sep : A) (l : list A) : list A :=
  match l with
  | [] => []
  | x :: rest =>
      match rest with
      | [] => [x]
      | _ :: _ => x :: sep :: intersperse sep rest
      end
  end.

Definition is_request (e : Event) : bool :=
  match e with
  | Request _ _ _ _ => true
  | _ => false
  end.

(** The number of attempts in a trace. *)
Definition count_requests (t : list Event) : Z :=
  Z.of_nat (List.length (filter is_request t)).

Definition is_simplify (e : Event) : bool :=
  match e with
  | Simplify _ => true
  | _ => false
  end.

(** A notice wrapped in the inline tag. *)
Definition tagged (s : string) : Prop :=
  exists inner, s = "<e>" ++ inner ++ "</e>".

Definition is_pause (e : Event) : bool :=
  match e with
  | Pause _ => true
  | _ => false
  end.

(** The milliseconds a trace spends in pauses. *)
Fixpoint total_pause (t : list Event) : Z :=
  match t with
  | [] => 0
  | Pause ms :: t' => ms + total_pause t'
  | _ :: t' => total_pause t'
  end.

(** [extractContentFromHtml] took one of its failure exits: a library
    threw, [parse] returned no article, or the article has no content. *)
Definition extraction_failed (env : Environment) (html : string) : Prop :=
  match Readability_parse env html with
  | Throw _ => True
  | Ok None => True
  | Ok (Some article) =>
      articleContent article = ""
      \/ exists t, turndown env (articleContent article) = Throw t
  end.


(* ================================================================== *)
(** * The tool dispatcher (index.ts, FetchSchema and the CallTool handler) *)
(* ================================================================== *)

(** A value found under a key of [request.params.arguments], as far as
    the schema tells values apart.  [Absent] is a key that is not there
    ([undefined]); a number is any finite number, integer or not;
    [JsonOther] is [null], an array or an object. *)
Inductive JsonValue : Type :=
| Absent
| JsonBoolean (b : bool)
| JsonNumber (n : Js.number)
| JsonString (s : string)
| JsonOther.

(** [request.params]: the tool name and the arguments object, if any,
    seen as the function from keys to values. *)
Record ToolCall : Type := mkToolCall {
  tool : string;
  arguments : option (string -> JsonValue)
}.

(** ** The schema combinators *)

Module Zod.

(** An entry of [ZodError.errors]: the key it is about and its code. *)
Inductive IssueCode : Type :=
| invalid_type
| invalid_string
| too_small
| too_big.

Record Issue : Type := mkIssue { path : string; code : IssueCode }.

(** The number checks of the schema: each yields the issue it raises. *)
Definition gt (bound n : Js.number) : option IssueCode :=
  if Js.gtb n bound then None else Some too_small.
Definition gte (bound n : Js.number) : option IssueCode :=
  if Js.geb n bound then None else Some too_small.
Definition lt (bound n : Js.number) : option IssueCode :=
  if Js.ltb n bound then None else Some too_big.
Definition lte (bound n : Js.number) : option IssueCode :=
  if Js.leb n bound then None else Some too_big.

(** [z.number()] followed by its checks: a value that is no number is
    one [invalid_type] issue; a number, whether an integer or not, runs
    every check and collects the issues. *)
Definition number (checks : list (Js.number -> option IssueCode))
    (key : string) (v : JsonValue) : list Issue + Js.number :=
  match v with
  | JsonNumber n =>
      match flat_map (fun check => match check n with
                                   | Some c => [mkIssue key c]
                                   | None => []
                                   end) checks with
      | [] => inr n
      | issues => inl issues
      end
  | _ => inl [mkIssue key invalid_type]
  end.

(** [z.boolean()] *)
Definition boolean (key : string) (v : JsonValue) : list Issue + bool :=
  match v with
  | JsonBoolean b => inr b
  | _ => inl [mkIssue key invalid_type]
  end.

(** [z.string().url(...)]; [is_url] is the URL parser's verdict. *)
Definition string_url (is_url : string -> bool) (key : string)
    (v : JsonValue) : list Issue + string :=
  match v with
  | JsonString s => if is_url s then inr s else inl [mkIssue key invalid_string]
  | _ => inl [mkIssue key invalid_type]
  end.

(** [.default(d)]: an absent key is parsed as [d]. *)
Definition default {A : Type} (d : JsonValue)
    (inner : string -> JsonValue -> list Issue + A) (key : string)
    (v : JsonValue) : list Issue + A :=
  inner key match v with
            | Absent => d
            | _ => v
            end.

Definition issues_of {A : Type} (r : list Issue + A) : list Issue :=
  match r with
  | inl issues => issues
  | inr _ => []
  end.

End Zod.

(** [z.infer<typeof FetchSchema>] *)
Record FetchArgs : Type := mkFetchArgs {
  arg_url : string;
  arg_max_length : Js.number;
  arg_start_index : Js.number;
  arg_raw : bool;
  arg_timeout : Js.number;
  arg_retries : Js.number
}.

(** [FetchSchema.parse(arguments)]: every key of the schema is parsed
    (other keys are dropped); the result is the record, or the issues of
    all keys in the order of the schema. *)
Definition FetchSchema_parse (is_url : string -> bool)
    (args : string -> JsonValue) : list Zod.Issue + FetchArgs :=
  let url := Zod.string_url is_url "url" (args "url") in
  let max_length :=
    Zod.default (JsonNumber (Js.int 5000))
      (Zod.number [Zod.gt (Js.int 0); Zod.lt (Js.int 1000000)])
      "max_length" (args "max_length") in
  let start_index :=
    Zod.default (JsonNumber (Js.int 0)) (Zod.number [Zod.gte (Js.int 0)])
      "start_index" (args "start_index") in
  let raw := Zod.default (JsonBoolean false) Zod.boolean "raw" (args "raw") in
  let timeout :=
    Zod.default (JsonNumber (Js.int 10000))
      (Zod.number [Zod.gt (Js.int 0); Zod.lte (Js.int 60000)])
      "timeout" (args "timeout") in
  let retries :=
    Zod.default (JsonNumber (Js.int 2))
      (Zod.number [Zod.gte (Js.int 0); Zod.lte (Js.int 5)])
      "retries" (args "retries") in
  match url, max_length, start_index, raw, timeout, retries with
  | inr u, inr m, inr s, inr r, inr t, inr n => inr (mkFetchArgs u m s r t n)
  | _, _, _, _, _, _ =>
      inl (Zod.issues_of url ++ Zod.issues_of max_length
           ++ Zod.issues_of start_index ++ Zod.issues_of raw
           ++ Zod.issues_of timeout ++ Zod.issues_of retries)%list
  end.

(** How an [async] function ends. *)
Inductive Completion (A : Type) : Type :=
| Returns (a : A)
| Throws (e : JsError).
Arguments Returns {A} a.
Arguments Throws {A} e.

(** The handler of [CallToolRequestSchema].  [JSON_stringify] renders
    [error.errors]. *)
Definition handle_call_tool (env : Environment) (is_url : string -> bool)
    (JSON_stringify : list Zod.Issue -> string) (request : ToolCall)
  : Eff (Completion ToolResult) :=
  match arguments request with
  | None => ret (Throws (mkError "Error" "Arguments are required"))
  | Some args =>
      if String.eqb (tool request) "fetch" then
        match FetchSchema_parse is_url args with
        | inl issues =>
            ret (Throws (mkError "Error"
                           ("Invalid input: " ++ JSON_stringify issues)))
        | inr a =>
            result <- call_fetch env (arg_url a) (arg_max_length a)
                        (arg_start_index a) (arg_raw a) (arg_timeout a)
                        (arg_retries a) ;;
            ret (Returns result)
        end
      else
        ret (Throws (mkError "Error" ("Unknown tool: " ++ tool request)))
  end.

(** An arguments object given by its entries; the first entry of a key
    counts. *)
Fixpoint object_of (entries : list (string * JsonValue)) (key : string)
  : JsonValue :=
  match entries with
  | [] => Absent
  | (k, v) :: rest => if String.eqb k key then v else object_of rest key
  end.

(* ================================================================== *)
(** * Facts about numbers *)
(* ================================================================== *)

Section NumberFacts.

Lemma leb_iff (x y : Js.number) : Js.leb x y = true <-> (x <= y)%Q.
Proof. apply Qle_bool_iff. Qed.

Lemma geb_iff (x y : Js.number) : Js.geb x y = true <-> (y <= x)%Q.
Proof. apply Qle_bool_iff. Qed.

Lemma ltb_iff (x y : Js.number) : Js.ltb x y = true <-> (x < y)%Q.
Proof.
  unfold Js.ltb. rewrite negb_true_iff, <- not_true_iff_false, Qle_bool_iff.
  split; [apply Qnot_le_lt|apply Qlt_not_le].
Qed.

Lemma gtb_iff (x y : Js.number) : Js.gtb x y = true <-> (y < x)%Q.
Proof. apply ltb_iff. Qed.

Lemma eqb_iff (x y : Js.number) : Js.eqb x y = true <-> (x == y)%Q.
Proof. apply Qeq_bool_iff. Qed.

Lemma leb_int (a b : Z) : Js.leb (Js.int a) (Js.int b) = (a <=? b).
Proof.
  unfold Js.leb, Js.int, Qle_bool. cbn [Qnum Qden inject_Z].
  now rewrite !Z.mul_1_r.
Qed.

Lemma geb_int (a b : Z) : Js.geb (Js.int a) (Js.int b) = (a >=? b).
Proof. rewrite Z.geb_leb. apply leb_int. Qed.

Lemma ltb_int (a b : Z) : Js.ltb (Js.int a) (Js.int b) = (a <? b).
Proof.
  unfold Js.ltb. fold (Js.leb (Js.int b) (Js.int a)).
  rewrite leb_int. symmetry. apply Z.ltb_antisym.
Qed.

Lemma gtb_int (a b : Z) : Js.gtb (Js.int a) (Js.int b) = (a >? b).
Proof. rewrite Z.gtb_ltb. apply ltb_int. Qed.

Lemma eqb_int (a b : Z) : Js.eqb (Js.int a) (Js.int b) = (a =? b).
Proof.
  apply eq_true_iff_eq. rewrite eqb_iff, Z.eqb_eq.
  unfold Js.int, Qeq. cbn [Qnum Qden inject_Z]. lia.
Qed.

Lemma round64_int (a : Z) : Js.round64 (Js.int a) = Js.int a.
Proof. now destruct a. Qed.

Lemma add_int (a b : Z) : Js.add (Js.int a) (Js.int b) = Js.int (a + b).
Proof.
  unfold Js.add.
  replace (Js.int a + Js.int b)%Q with (Js.int (a + b)); [apply round64_int|].
  unfold Js.int, inject_Z, Qplus. cbn [Qnum Qden Pos.mul]. f_equal. lia.
Qed.

Lemma sub_int (a b : Z) : Js.sub (Js.int a) (Js.int b) = Js.int (a - b).
Proof.
  unfold Js.sub.
  replace (Js.int a - Js.int b)%Q with (Js.int (a - b)); [apply round64_int|].
  unfold Js.int, inject_Z, Qminus, Qplus, Qopp. cbn [Qnum Qden Pos.mul].
  f_equal. lia.
Qed.

Lemma trunc_int (a : Z) : Js.trunc (Js.int a) = a.
Proof.
  unfold Js.trunc, Js.int. rewrite Qfloor_Z, Qceiling_Z.
  now destruct (Qle_bool 0 (inject_Z a)).
Qed.

Lemma number_toString_int (a : Z) :
  Js.number_toString (Js.int a) = Js.toString a.
Proof.
  unfold Js.number_toString, Js.int. cbn [Qnum Qden inject_Z].
  now rewrite Z.rem_1_r, Z.quot_1_r.
Qed.

(** An integer is below a number exactly when it is below its floor;
    strictly below exactly when strictly below its ceiling. *)
Lemma int_le_floor (a : Z) (x : Js.number) :
  (Js.int a <= x)%Q <-> a <= Qfloor x.
Proof.
  unfold Js.int. split; intros H.
  - rewrite <- (Qfloor_Z a). now apply Qfloor_resp_le.
  - apply Qle_trans with (inject_Z (Qfloor x)); [|apply Qfloor_le].
    now rewrite <- Zle_Qle.
Qed.

Lemma int_lt_ceiling (a : Z) (x : Js.number) :
  (Js.int a < x)%Q <-> a < Qceiling x.
Proof.
  unfold Js.int. split; intros H.
  - apply Z.lt_nge. intros Hc. apply (Qlt_not_le _ _ H).
    apply Qle_trans with (inject_Z (Qceiling x)); [apply Qle_ceiling|].
    now rewrite <- Zle_Qle.
  - apply Qnot_le_lt. intros Hc. apply (Qceiling_resp_le _ _) in Hc.
    rewrite Qceiling_Z in Hc. lia.
Qed.

Lemma leb_int_floor (a : Z) (x : Js.number) :
  Js.leb (Js.int a) x = (a <=? Qfloor x).
Proof.
  apply eq_true_iff_eq. rewrite leb_iff, Z.leb_le. apply int_le_floor.
Qed.

Lemma ltb_int_ceiling (a : Z) (x : Js.number) :
  Js.ltb (Js.int a) x = (a <? Qceiling x).
Proof.
  apply eq_true_iff_eq. rewrite ltb_iff, Z.ltb_lt. apply int_lt_ceiling.
Qed.

Lemma floor_le_ceiling (x : Js.number) : Qfloor x <= Qceiling x.
Proof.
  rewrite Zle_Qle.
  apply Qle_trans with x; [apply Qfloor_le|apply Qle_ceiling].
Qed.

Lemma ceiling_le_floor_succ (x : Js.number) : Qceiling x <= Qfloor x + 1.
Proof.
  assert (Qceiling x < Qfloor x + 1 + 1); [|lia].
  rewrite Zlt_Qlt.
  apply Qlt_trans with (x + 1)%Q.
  - setoid_replace (inject_Z (Qceiling x))
      with (inject_Z (Qceiling x - 1 + 1)) by (now rewrite Z.sub_add).
    rewrite inject_Z_plus.
    apply Qplus_lt_l. unfold Qceiling.
    replace (- Qfloor (- x) - 1) with (- (Qfloor (- x) + 1)) by lia.
    rewrite inject_Z_opp.
    setoid_replace x with (- - x)%Q at 2 by (now rewrite Qopp_involutive).
    apply Qopp_lt_compat. apply Qlt_floor.
  - rewrite (inject_Z_plus (Qfloor x + 1) 1).
    apply Qplus_lt_l. apply Qlt_floor.
Qed.

Lemma floor_int (a : Z) : Qfloor (Js.int a) = a.
Proof. apply Qfloor_Z. Qed.

Lemma ceiling_int (a : Z) : Qceiling (Js.int a) = a.
Proof. apply Qceiling_Z. Qed.

End NumberFacts.

(* ================================================================== *)
(** * Facts about the JavaScript primitives *)
(* ================================================================== *)

Section StringFacts.

Lemma length_nonneg (s : string) : 0 <= Js.length s.
Proof. unfold Js.length. lia. Qed.

Lemma truthy_length (s : string) : Js.truthy s = true <-> 0 < Js.length s.
Proof.
  unfold Js.length. destruct s; cbn [Js.truthy String.length]; split;
    intros; try lia; try discriminate; reflexivity.
Qed.

Lemma truthy_nonempty (s : string) : Js.truthy s = true <-> s <> "".
Proof. destruct s; cbn; split; congruence. Qed.

Lemma length_take (n : nat) (s : string) :
  String.length (Js.take n s) = Nat.min n (String.length s).
Proof.
  revert s. induction n as [|n IH]; intros [|c s]; cbn; try reflexivity.
  now rewrite IH.
Qed.

Lemma length_drop (n : nat) (s : string) :
  String.length (Js.drop n s) = (String.length s - n)%nat.
Proof.
  revert s. induction n as [|n IH]; intros [|c s]; cbn; try reflexivity.
  apply IH.
Qed.

Lemma take_drop (n : nat) (s : string) : Js.take n s ++ Js.drop n s = s.
Proof.
  revert s. induction n as [|n IH]; intros [|c s]; cbn; try reflexivity.
  now rewrite IH.
Qed.

Lemma drop_drop (n m : nat) (s : string) :
  Js.drop n (Js.drop m s) = Js.drop (m + n) s.
Proof.
  revert s. induction m as [|m IH]; intros s; cbn [Nat.add].
  - reflexivity.
  - destruct s as [|c s]; cbn [Js.drop].
    + now destruct n.
    + apply IH.
Qed.

Lemma take_all (n : nat) (s : string) :
  (String.length s <= n)%nat -> Js.take n s = s.
Proof.
  revert s. induction n as [|n IH]; intros [|c s]; cbn; intros H;
    try reflexivity; try lia.
  f_equal. apply IH. lia.
Qed.

Lemma drop_all (n : nat) (s : string) :
  (String.length s <= n)%nat -> Js.drop n s = "".
Proof.
  revert s. induction n as [|n IH]; intros [|c s]; cbn; intros H;
    try reflexivity; try lia.
  apply IH. lia.
Qed.

Lemma append_empty (s : string) : s ++ "" = s.
Proof. induction s as [|c s IH]; cbn; congruence. Qed.

Lemma append_assoc (a b c : string) : (a ++ b) ++ c = a ++ (b ++ c).
Proof. induction a as [|x a IH]; cbn; congruence. Qed.

(** Reading one code unit of a range reads the text at the shifted
    position: a range alters no character. *)
Lemma get_take (n i : nat) (s : string) :
  (i < n)%nat -> String.get i (Js.take n s) = String.get i s.
Proof.
  revert i s. induction n as [|n IH]; intros i [|c s] H; cbn; try lia;
    try reflexivity.
  destruct i; [reflexivity|]. apply IH. lia.
Qed.

Lemma get_drop (n i : nat) (s : string) :
  String.get i (Js.drop n s) = String.get (n + i) s.
Proof.
  revert s. induction n as [|n IH]; intros [|c s]; cbn; try reflexivity.
  apply IH.
Qed.

Lemma code_units_get (text : string) (from to : Z) (i : nat) :
  0 <= from -> Z.of_nat i < to - from ->
  String.get i (code_units text from to)
  = String.get (Z.to_nat from + i) text.
Proof.
  intros Hf Hi. unfold code_units.
  rewrite get_take by lia. apply get_drop.
Qed.

(** [take] after [drop] is the [substring] of the standard library. *)
Lemma take_drop_substring (k n : nat) (s : string) :
  Js.take n (Js.drop k s) = String.substring k n s.
Proof.
  revert n s. induction k as [|k IH]; intros n s.
  - cbn [Js.drop]. revert s. induction n as [|n IHn]; intros [|c s]; cbn;
      try reflexivity.
    now rewrite IHn.
  - destruct s as [|c s]; cbn [Js.drop String.substring].
    + now destruct n.
    + apply IH.
Qed.

Lemma code_units_substring (text : string) (from to : Z) :
  code_units text from to
  = String.substring (Z.to_nat from) (Z.to_nat (to - from)) text.
Proof. apply take_drop_substring. Qed.

(** What [substring] returns, in terms of the truncated arguments. *)
Lemma substring_trunc (text : string) (start stop : Js.number) :
  let from := Js.clamp (Js.length text) (Js.trunc start) in
  let to := Js.clamp (Js.length text) (Js.trunc stop) in
  Js.substring text start stop
  = code_units text (Z.min from to) (Z.max from to).
Proof. reflexivity. Qed.

(** Inside the text and for a positive width, [substring] neither
    clamps the start nor swaps: it is the range up to the clamped end. *)
Lemma substring_in_range (text : string) (startIndex maxLength : Z) :
  0 <= startIndex < Js.length text -> 0 < maxLength ->
  Js.substring text (Js.int startIndex) (Js.int (startIndex + maxLength))
  = code_units text startIndex
      (Z.min (startIndex + maxLength) (Js.length text)).
Proof.
  intros Hs Hm. unfold Js.substring, code_units, Js.clamp.
  rewrite !trunc_int.
  f_equal; [f_equal|f_equal; f_equal]; lia.
Qed.

Lemma length_code_units (text : string) (from to : Z) :
  0 <= from <= to -> to <= Js.length text ->
  Js.length (code_units text from to) = to - from.
Proof.
  intros H1 H2. unfold code_units, Js.length in *.
  rewrite length_take, length_drop. lia.
Qed.

Lemma length_substring_in_range (text : string) (startIndex maxLength : Z) :
  0 <= startIndex < Js.length text -> 0 < maxLength ->
  Js.length
    (Js.substring text (Js.int startIndex) (Js.int (startIndex + maxLength)))
  = Z.min maxLength (Js.length text - startIndex).
Proof.
  intros Hs Hm. rewrite substring_in_range by assumption.
  rewrite length_code_units; lia.
Qed.

(** The length of what [substring] returns, for any two numbers. *)
Lemma length_substring (text : string) (start stop : Js.number) :
  let from := Js.clamp (Js.length text) (Js.trunc start) in
  let to := Js.clamp (Js.length text) (Js.trunc stop) in
  Js.length (Js.substring text start stop) = Z.max from to - Z.min from to.
Proof.
  intros from to. rewrite substring_trunc. fold from to.
  pose proof (length_nonneg text).
  apply length_code_units; unfold from, to, Js.clamp; lia.
Qed.

End StringFacts.

(* ================================================================== *)
(** * Facts about the percentage *)
(* ================================================================== *)

Section PercentFacts.

Lemma div_eucl_shift (p : positive) :
  Z.div_eucl (Z.shiftl (Zpos p) 53) (Zpos p) = (2 ^ 53, 0).
Proof.
  rewrite Z.shiftl_mul_pow2 by lia.
  rewrite (surjective_pairing (Z.div_eucl _ _)).
  change (fst (Z.div_eucl ?a ?b)) with (a / b).
  change (snd (Z.div_eucl ?a ?b)) with (a mod b).
  rewrite (Z.mul_comm (Z.pos p)), Z.div_mul, Z.mod_mul by lia.
  reflexivity.
Qed.

(** In binary64 a positive integer divided by itself is exactly 1. *)
Lemma SFdiv_self (p : positive) :
  SFdiv Js.prec Js.emax (Js.of_int (Zpos p)) (Js.of_int (Zpos p))
  = S754_finite false 4503599627370496 (-52).
Proof.
  cbn [Js.of_int SFdiv].
  unfold SFdiv_core_binary.
  replace (Zdigits2 (Z.pos p) + 0 - (Zdigits2 (Z.pos p) + 0)) with 0 by lia.
  cbn [Z.sub Z.opp Z.add].
  change (Z.min (fexp Js.prec Js.emax 0) 0) with (-53).
  cbn [Z.sub Z.opp Z.add Z.pos_sub Pos.add].
  change (0 - -53) with 53.
  rewrite div_eucl_shift.
  assert (new_location (Z.pos p) 0 = loc_Exact) as ->.
  { unfold new_location, new_location_even, new_location_odd.
    destruct (Z.even (Z.pos p)); reflexivity. }
  vm_compute. reflexivity.
Qed.

Lemma percentShown_everything (total : Z) :
  0 < total -> percentShown (Js.int total) total = Js.Finite 100.
Proof.
  intros H. destruct total as [|p|p]; try lia.
  unfold percentShown. cbn [Js.to_binary64 Js.int inject_Z Qden Qnum].
  rewrite SFdiv_self. vm_compute. reflexivity.
Qed.

(** The quotient is rounded to binary64 before it is multiplied: 29 of
    200 is 14.5 percent exactly, 14.499999999999998 in binary64, and
    [Math.round] gives 14. *)
Example percentShown_binary64 :
  percentShown (Js.int 29) 200 = Js.Finite 14.
Proof. vm_compute. reflexivity. Qed.

Example percentShown_40 : percentShown (Js.int 4) 10 = Js.Finite 40.
Proof. vm_compute. reflexivity. Qed.

Example percentShown_values :
  percentShown (Js.int 2) 3 = Js.Finite 67
  /\ percentShown (Js.int 4) 7 = Js.Finite 57
  /\ percentShown (Js.int 1) 3 = Js.Finite 33
  /\ percentShown (Js.int 1) 200 = Js.Finite 1
  /\ percentShown (Js.int 0) 5 = Js.Finite 0.
Proof. repeat split; vm_compute; reflexivity. Qed.

(** A fraction shown: 8.5 + 2 of 10 is 105 percent. *)
Example percentShown_105 :
  percentShown (Js.add eight_and_a_half (Js.int 2)) 10 = Js.Finite 105.
Proof. vm_compute. reflexivity. Qed.

End PercentFacts.

(* ================================================================== *)
(** * The paginator *)
(* ================================================================== *)

Section PaginatorFacts.

(** [paginate] is the rendering of the view. *)
Lemma paginate_render (content : string) (startIndex maxLength : Js.number) :
  paginate content startIndex maxLength
  = render (paginate_view content startIndex maxLength).
Proof.
  unfold paginate, paginate_view.
  destruct (Js.geb startIndex _); [reflexivity|].
  destruct (negb (Js.truthy _)); [reflexivity|].
  destruct (_ && _); [reflexivity|].
  destruct (Js.gtb startIndex _); cbn [render render_notice]; [reflexivity|].
  now rewrite append_empty.
Qed.

(** Past the end the view is the sentinel. *)
Lemma paginate_view_past_end (content : string)
    (startIndex maxLength : Js.number) :
  (Js.int (Js.length content) <= startIndex)%Q ->
  paginate_view content startIndex maxLength = NoMoreContent.
Proof.
  intros H. unfold paginate_view.
  now rewrite (proj2 (geb_iff _ _) H).
Qed.

(** The two tests that choose the notice, as propositions. *)
Lemma truncation_test (total len : Z) (startIndex maxLength : Js.number) :
  Js.eqb (Js.int len) maxLength
  && Js.gtb (Js.sub (Js.int total) (Js.add startIndex (Js.int len)))
       (Js.int 0) = true
  <-> (Js.int len == maxLength)%Q
      /\ (Js.sub (Js.int total) (Js.add startIndex (Js.int len)) > 0)%Q.
Proof. rewrite andb_true_iff, eqb_iff, gtb_iff. reflexivity. Qed.

(** Before the end of the text, when [substring] returns something, the
    view is a page: the slice is what [substring] returns and the notice
    is chosen by the two tests of the source. *)
Lemma paginate_view_inside (content : string)
    (startIndex maxLength : Js.number) :
  let total := Js.length content in
  let slice := Js.substring content startIndex (Js.add startIndex maxLength) in
  let shown := Js.add startIndex (Js.int (Js.length slice)) in
  (startIndex < Js.int total)%Q -> slice <> "" ->
  paginate_view content startIndex maxLength
  = Page slice
      (if Js.eqb (Js.int (Js.length slice)) maxLength
          && Js.gtb (Js.sub (Js.int total) shown) (Js.int 0)
       then Truncated (percentShown shown total) shown
       else if Js.gtb startIndex (Js.int 0)
            then Continuation startIndex (percentShown shown total)
            else NoNotice).
Proof.
  intros total slice shown Hs Hne. unfold paginate_view.
  destruct (Js.geb startIndex (Js.int (Js.length content))) eqn:E.
  { apply geb_iff in E. exfalso. apply (Qlt_not_le _ _ Hs E). }
  fold slice. rewrite (proj2 (truthy_nonempty slice) Hne). cbn [negb].
  fold shown total.
  destruct (_ && _); [reflexivity|].
  destruct (Js.gtb startIndex _); reflexivity.
Qed.

(** The same for integers: inside the text and with a positive width
    [substring] returns something, and the tests are tests on
    integers. *)
Lemma paginate_view_page (content : string) (startIndex maxLength : Z) :
  0 <= startIndex < Js.length content -> 0 < maxLength ->
  let slice :=
    Js.substring content (Js.int startIndex)
      (Js.int (startIndex + maxLength)) in
  let shown := startIndex + Js.length slice in
  let total := Js.length content in
  paginate_view content (Js.int startIndex) (Js.int maxLength)
  = Page slice
      (if (Js.length slice =? maxLength) && (total - shown >? 0)
       then Truncated (percentShown (Js.int shown) total) (Js.int shown)
       else if startIndex >? 0
            then Continuation (Js.int startIndex)
                   (percentShown (Js.int shown) total)
            else NoNotice).
Proof.
  intros Hs Hm slice shown total.
  rewrite paginate_view_inside.
  - now rewrite !add_int, sub_int, eqb_int, !gtb_int.
  - unfold Js.int. rewrite <- Zlt_Qlt. lia.
  - rewrite add_int. apply truthy_nonempty, truthy_length.
    rewrite length_substring_in_range; lia.
Qed.

(** A reader with enough fuel that starts anywhere in the text collects
    exactly the rest of the text and stops at its end. *)
Lemma read_all_rest (content : string) (maxLength : Z) :
  0 < maxLength ->
  forall (fuel : nat) (startIndex : Z),
    0 <= startIndex <= Js.length content ->
    Js.length content - startIndex < Z.of_nat fuel ->
    exists slices,
      read_all fuel content (Js.int startIndex) (Js.int maxLength)
      = Some (slices, Js.int (Js.length content))
      /\ concat_slices slices = Js.drop (Z.to_nat startIndex) content.
Proof.
  intros Hm. induction fuel as [|fuel IH]; intros startIndex Hs Hf; [lia|].
  cbn [read_all].
  destruct (Z.eq_dec startIndex (Js.length content)) as [->|Hne].
  - rewrite paginate_view_past_end by apply Qle_refl.
    exists []. split; [reflexivity|].
    cbn. symmetry. apply drop_all. unfold Js.length. lia.
  - rewrite paginate_view_page by lia.
    pose proof (length_substring_in_range content startIndex maxLength
                  ltac:(lia) Hm) as Hlen.
    pose proof (substring_in_range content startIndex maxLength
                  ltac:(lia) Hm) as Hsub.
    set (slice := Js.substring content (Js.int startIndex)
                    (Js.int (startIndex + maxLength))) in *.
    assert (last_slice : forall notice,
               next_start_index (Page slice notice) = None ->
               startIndex + Js.length slice = Js.length content ->
               exists slices,
                 match next_start_index (Page slice notice) with
                 | Some nextStart =>
                     match read_all fuel content nextStart (Js.int maxLength)
                     with
                     | Some (slices, stop) => Some (slice :: slices, stop)
                     | None => None
                     end
                 | None =>
                     Some ([slice],
                           Js.add (Js.int startIndex)
                             (Js.int (Js.length slice)))
                 end = Some (slices, Js.int (Js.length content))
                 /\ concat_slices slices
                    = Js.drop (Z.to_nat startIndex) content).
    { intros notice -> Hend. exists [slice]. split.
      { now rewrite add_int, Hend. }
      cbn [concat_slices fold_right]. rewrite append_empty, Hsub.
      unfold code_units. apply take_all. rewrite length_drop.
      unfold Js.length in *. lia. }
    rewrite Z.gtb_ltb.
    destruct (Z.eqb_spec (Js.length slice) maxLength) as [He|He];
      destruct (Z.ltb_spec 0 (Js.length content
                                - (startIndex + Js.length slice)))
      as [Hr|Hr]; cbn [andb].
    + (* truncated: the reader goes on at the reported cursor *)
      destruct (IH (startIndex + Js.length slice)) as (rest & E & C);
        [lia|lia|].
      cbn [next_start_index]. rewrite E. exists (slice :: rest).
      split; [reflexivity|].
      cbn [concat_slices fold_right]. fold (concat_slices rest).
      rewrite C.
      replace (Z.to_nat (startIndex + Js.length slice))
        with (Z.to_nat startIndex + Z.to_nat (Js.length slice))%nat by lia.
      rewrite <- drop_drop, Hsub at 1. unfold code_units.
      replace (Z.to_nat (Z.min (startIndex + maxLength) (Js.length content)
                         - startIndex))
        with (Z.to_nat (Js.length slice)) by lia.
      apply take_drop.
    + destruct (startIndex >? 0); apply last_slice; solve [reflexivity|lia].
    + destruct (startIndex >? 0); apply last_slice; solve [reflexivity|lia].
    + destruct (startIndex >? 0); apply last_slice; solve [reflexivity|lia].
Qed.

(** More fuel does not change what the reader returns. *)
Lemma read_all_more_fuel (fuel fuel' : nat) (content : string)
    (startIndex maxLength : Js.number) (r : list string * Js.number) :
  (fuel <= fuel')%nat ->
  read_all fuel content startIndex maxLength = Some r ->
  read_all fuel' content startIndex maxLength = Some r.
Proof.
  revert fuel' startIndex r.
  induction fuel as [|fuel IH]; intros fuel' startIndex r Hle;
    [discriminate|].
  destruct fuel' as [|fuel']; [lia|]. cbn [read_all].
  destruct (paginate_view content startIndex maxLength) as [|slice notice];
    [trivial|].
  destruct (next_start_index (Page slice notice)) as [nextStart|];
    [|trivial].
  destruct (read_all fuel content nextStart maxLength) as [[slices stop]|]
    eqn:E; [|discriminate].
  now rewrite (IH fuel' nextStart (slices, stop) ltac:(lia) E).
Qed.

(** Putting slices together is the concatenation of the standard
    library with an empty separator. *)
Lemma concat_slices_concat (slices : list string) :
  concat_slices slices = String.concat "" slices.
Proof.
  induction slices as [|x [|y l] IH]; [reflexivity|apply append_empty|].
  cbn [concat_slices fold_right String.concat] in *.
  now rewrite IH.
Qed.

(** C1.  Past the end of the text the paginator answers with the
    sentinel [<e>No more content available.</e>], whatever [maxLength]
    is; in particular it does not answer with the empty string.  Both
    parameters are arbitrary numbers. *)
Theorem paginate_past_end (text : string)
    (startIndex maxLength : Js.number) :
  (startIndex >= Js.int (Js.length text))%Q ->
  paginate text startIndex maxLength = "<e>No more content available.</e>"
  /\ paginate text startIndex maxLength <> "".
Proof.
  intros H. rewrite paginate_render, paginate_view_past_end by exact H.
  split; [reflexivity|discriminate].
Qed.

Lemma paginate_past_end_witness :
  (Js.int 7 >= Js.int (Js.length "abc"))%Q
  /\ paginate "abc" (Js.int 7) (Js.int 5)
     = "<e>No more content available.</e>"
  /\ paginate "abc" (Js.int 7) (Js.int 5) <> "".
Proof.
  split; [vm_compute; discriminate|].
  apply (paginate_past_end "abc" (Js.int 7) (Js.int 5)).
  vm_compute; discriminate.
Defined.

(** C2, for an integer [maxLength].  For a positive integer
    [maxLength]: every call at an integer position inside the text
    returns the code units [startIndex <= i < min (startIndex +
    maxLength) total] of the text, unaltered, followed by its notice; and
    a reader that starts at 0 and follows the reported [start_index]
    collects slices whose concatenation is the text, and ends at the
    position where the paginator answers with the sentinel. *)
Theorem pagination_round_trip (text : string) (maxLength : Z) :
  0 < maxLength ->
  (forall startIndex : Z, 0 <= startIndex < Js.length text ->
     let stop := Z.min (startIndex + maxLength) (Js.length text) in
     let slice :=
       String.substring (Z.to_nat startIndex) (Z.to_nat (stop - startIndex))
         text in
     (exists notice,
        paginate_view text (Js.int startIndex) (Js.int maxLength)
        = Page slice notice
        /\ paginate text (Js.int startIndex) (Js.int maxLength)
           = slice ++ render_notice notice)
     /\ Z.of_nat (String.length slice) = stop - startIndex
     /\ forall i : nat,
          Z.of_nat i < stop - startIndex ->
          String.get i slice = String.get (Z.to_nat startIndex + i) text)
  /\ exists slices,
       (forall fuel, (String.length text < fuel)%nat ->
          read_all fuel text (Js.int 0) (Js.int maxLength)
          = Some (slices, Js.int (Js.length text)))
       /\ String.concat "" slices = text
       /\ paginate text (Js.int (Js.length text)) (Js.int maxLength)
          = "<e>No more content available.</e>".
Proof.
  intros Hm. split.
  - intros startIndex Hs stop slice.
    assert (slice = code_units text startIndex stop) as ->
      by (symmetry; apply code_units_substring).
    split; [|split].
    + rewrite paginate_render, paginate_view_page by assumption.
      rewrite substring_in_range by assumption.
      eexists. split; reflexivity.
    + apply length_code_units; unfold stop; lia.
    + intros i Hi. apply code_units_get; lia.
  - pose proof (length_nonneg text) as Hn.
    destruct (read_all_rest text maxLength Hm (S (String.length text)) 0)
      as (slices & E & C); [lia|unfold Js.length; lia|].
    exists slices. split; [|split].
    + intros fuel Hf.
      apply (read_all_more_fuel (S (String.length text))); [lia|exact E].
    + rewrite <- concat_slices_concat. exact C.
    + rewrite paginate_render, paginate_view_past_end by apply Qle_refl.
      reflexivity.
Qed.

Lemma pagination_round_trip_witness :
  0 < 4
  /\ exists slices,
       read_all 11 "0123456789" (Js.int 0) (Js.int 4)
       = Some (slices, Js.int 10)
       /\ String.concat "" slices = "0123456789".
Proof.
  split; [reflexivity|].
  destruct (pagination_round_trip "0123456789" 4 eq_refl)
    as (_ & slices & R & C & _).
  exists slices. split; [apply R; cbn; lia|exact C].
Defined.

(** C2 as stated, for every [maxLength > 0], does not hold: the schema
    lets a fraction through ([z.number()] has no [.int()]).  With
    [maxLength = 2.5] on a text of ten code units the first call returns
    the two code units ["01"] and reports no [start_index] (2 is not
    2.5), so the reader stops there with two code units of ten. *)
Lemma round_trip_stops_at_fraction :
  (0 < two_and_a_half)%Q
  /\ Zod.number [Zod.gt (Js.int 0); Zod.lt (Js.int 1000000)] "max_length"
       (JsonNumber two_and_a_half) = inr two_and_a_half
  /\ paginate "0123456789" (Js.int 0) two_and_a_half = "01"
  /\ next_start_index (paginate_view "0123456789" (Js.int 0) two_and_a_half)
     = None
  /\ (forall fuel,
        read_all (S fuel) "0123456789" (Js.int 0) two_and_a_half
        = Some (["01"], Js.int 2))
  /\ String.concat "" ["01"] <> "0123456789".
Proof.
  split; [reflexivity|]. split; [reflexivity|].
  split; [vm_compute; reflexivity|].
  split; [vm_compute; reflexivity|]. split; [|discriminate].
  intros fuel. cbn [read_all].
  assert (paginate_view "0123456789" (Js.int 0) two_and_a_half
          = Page "01" NoNotice) as -> by (vm_compute; reflexivity).
  vm_compute. reflexivity.
Qed.

(** C3.  Before the end of the text, when a slice is returned, the
    suffix after the slice is fixed by the two tests of the code.  It is
    the truncation notice, carrying [Math.round (shown / total * 100)]
    and the next [start_index] [shown = startIndex + len slice], exactly
    when the slice has [maxLength] code units and content remains
    ([total - shown > 0]); otherwise it is the percentage notice without
    a cursor exactly when [startIndex > 0]; otherwise there is none.
    This holds for all numbers.  For integers [0 <= startIndex < total]
    and [0 < maxLength] a slice is returned, [shown] is the integer
    [startIndex + len slice], and content remains exactly when
    [shown < total].  When [substring] returns nothing (a width below 1)
    the answer is the sentinel.  On ["0123456789"], 0, 4 the slice is ["0123"], the
    cursor 4 and the percentage 40; on ["0123456789"], 8, 4 the slice is
    ["89"] and the percentage 100. *)
Theorem paginate_status_suffix (text : string)
    (startIndex maxLength : Js.number) :
  let total := Js.length text in
  let slice := Js.substring text startIndex (Js.add startIndex maxLength) in
  let shown := Js.add startIndex (Js.int (Js.length slice)) in
  let percent := percentShown shown total in
  let truncated :=
    (Js.int (Js.length slice) == maxLength)%Q
    /\ (Js.sub (Js.int total) shown > 0)%Q in
  ((startIndex < Js.int total)%Q -> slice <> "" ->
   exists notice,
     paginate_view text startIndex maxLength = Page slice notice
     /\ (truncated <-> notice = Truncated percent shown)
     /\ (~ truncated /\ (startIndex > 0)%Q
         <-> notice = Continuation startIndex percent)
     /\ (~ truncated /\ ~ (startIndex > 0)%Q <-> notice = NoNotice)
     /\ paginate text startIndex maxLength
        = slice
          ++ match notice with
             | Truncated p nextStart =>
                 Js.LF ++ Js.LF ++ "<e>Content truncated ("
                 ++ Js.rounded_toString p
                 ++ "% shown). Call the fetch tool with start_index="
                 ++ Js.number_toString nextStart
                 ++ " to get more content.</e>"
             | Continuation i p =>
                 Js.LF ++ Js.LF ++ "<e>Showing content from index "
                 ++ Js.number_toString i ++ " (" ++ Js.rounded_toString p
                 ++ "% of total).</e>"
             | NoNotice => ""
             end)
  /\ (forall s m : Z,
        startIndex = Js.int s -> maxLength = Js.int m ->
        0 <= s < total -> 0 < m ->
        (startIndex < Js.int total)%Q /\ slice <> ""
        /\ shown = Js.int (s + Js.length slice)
        /\ (truncated <-> Js.length slice = m /\ s + Js.length slice < total)
        /\ ((startIndex > 0)%Q <-> s > 0)
        /\ Js.number_toString startIndex = Js.toString s
        /\ Js.number_toString shown = Js.toString (s + Js.length slice))
  /\ ((startIndex < Js.int total)%Q -> slice = "" ->
      paginate text startIndex maxLength
      = "<e>No more content available.</e>")
  /\ paginate "0123456789" (Js.int 0) (Js.int 4)
     = "0123" ++ Js.LF ++ Js.LF
       ++ "<e>Content truncated (40% shown). Call the fetch tool with start_index=4 to get more content.</e>"
  /\ paginate "0123456789" (Js.int 8) (Js.int 4)
     = "89" ++ Js.LF ++ Js.LF
       ++ "<e>Showing content from index 8 (100% of total).</e>".
Proof.
  intros total slice shown percent truncated.
  split; [|split; [|split; [|split; vm_compute; reflexivity]]].
  - intros Hs Hne.
    rewrite paginate_render, paginate_view_inside by assumption.
    fold total slice shown percent.
    pose proof (truncation_test total (Js.length slice) startIndex maxLength)
      as T.
    assert (P : Js.gtb startIndex (Js.int 0) = true <-> (startIndex > 0)%Q)
      by apply gtb_iff.
    fold shown truncated in T.
    destruct (_ && _).
    + assert truncated as Ht by now apply T.
      eexists. split; [reflexivity|].
      clearbody truncated.
      repeat split; intros; try discriminate; try reflexivity; tauto.
    + assert (~ truncated) as Ht by (intros c; apply T in c; discriminate).
      destruct (Js.gtb startIndex (Js.int 0)).
      * assert (startIndex > 0)%Q as Hp by now apply P.
        eexists. split; [reflexivity|]. clearbody truncated.
        repeat split; intros; try discriminate; try reflexivity;
          try assumption; tauto.
      * assert (~ (startIndex > 0)%Q) as Hp
          by (intros c; apply P in c; discriminate).
        eexists. split; [reflexivity|]. clearbody truncated.
        repeat split; intros; try discriminate; try reflexivity;
          try assumption; tauto.
  - intros s m Es Em Hs Hm. unfold truncated, shown.
    clear truncated percent shown. subst startIndex maxLength.
    rewrite !add_int, sub_int, !number_toString_int.
    unfold Js.int. rewrite <- !Zlt_Qlt, inject_Z_injective.
    change 0%Q with (inject_Z 0). rewrite <- !Zlt_Qlt.
    repeat split; try lia.
    unfold slice. rewrite add_int.
    apply truthy_nonempty, truthy_length.
    rewrite length_substring_in_range; lia.
  - intros Hs He. unfold paginate.
    destruct (Js.geb startIndex (Js.int (Js.length text))); [reflexivity|].
    fold slice. now rewrite He.
Qed.

Lemma paginate_status_suffix_witness :
  ((Js.int 4 < Js.int (Js.length "0123456789"))%Q
   /\ Js.substring "0123456789" (Js.int 4) (Js.add (Js.int 4) (Js.int 4))
      <> "")
  /\ paginate "0123456789" (Js.int 4) (Js.int 4)
     = "4567" ++ Js.LF ++ Js.LF
       ++ "<e>Content truncated (80% shown). Call the fetch tool with start_index=8 to get more content.</e>".
Proof.
  assert (H1 : (Js.int 4 < Js.int (Js.length "0123456789"))%Q)
    by reflexivity.
  assert (H2 : Js.substring "0123456789" (Js.int 4)
                 (Js.add (Js.int 4) (Js.int 4)) <> "")
    by (vm_compute; discriminate).
  split; [split; assumption|].
  destruct (proj1 (paginate_status_suffix "0123456789" (Js.int 4) (Js.int 4))
              H1 H2)
    as (notice & _ & T & _ & _ & P).
  rewrite P.
  rewrite (proj1 T) by (split; vm_compute; reflexivity).
  vm_compute. reflexivity.
Defined.

(** C10, for integers.  Whenever the percentage notice without a cursor
    is appended, for an integer [startIndex] and a positive integer
    [maxLength], the slice ends the text, so the percentage it reports is
    100. *)
Theorem continuation_notice_reports_100 (text : string)
    (startIndex maxLength : Z) (slice : string) (i : Js.number)
    (percent : Js.rounded) :
  0 < maxLength ->
  paginate_view text (Js.int startIndex) (Js.int maxLength)
  = Page slice (Continuation i percent) ->
  startIndex + Js.length slice = Js.length text
  /\ percent = Js.Finite 100
  /\ paginate text (Js.int startIndex) (Js.int maxLength)
     = slice ++ Js.LF ++ Js.LF ++ "<e>Showing content from index "
       ++ Js.toString startIndex ++ " (100% of total).</e>".
Proof.
  intros Hm V.
  assert (0 < startIndex < Js.length text) as Hs.
  { revert V. unfold paginate_view.
    rewrite geb_int, !add_int, sub_int, eqb_int, !gtb_int.
    rewrite Z.geb_leb, !Z.gtb_ltb.
    destruct (Z.leb_spec (Js.length text) startIndex); [discriminate|].
    destruct (negb _); [discriminate|].
    destruct (_ && _); [discriminate|].
    destruct (Z.ltb_spec 0 startIndex); [lia|discriminate]. }
  pose proof (length_substring_in_range text startIndex maxLength
                ltac:(lia) Hm) as Hlen.
  rewrite paginate_render, V. cbn [render render_notice].
  rewrite paginate_view_page in V by lia.
  set (sl := Js.substring text (Js.int startIndex)
               (Js.int (startIndex + maxLength))) in *.
  assert (startIndex + Js.length sl = Js.length text
          /\ Page sl (Continuation (Js.int startIndex)
                        (percentShown (Js.int (Js.length text))
                           (Js.length text)))
             = Page slice (Continuation i percent)) as [Hend E].
  { revert V. rewrite !Z.gtb_ltb.
    destruct (Z.eqb_spec (Js.length sl) maxLength) as [He|He];
      destruct (Z.ltb_spec 0 (Js.length text - (startIndex + Js.length sl)))
        as [Hr|Hr];
      cbn [andb]; try discriminate;
      (destruct (Z.ltb_spec 0 startIndex); [|lia]);
      (assert (startIndex + Js.length sl = Js.length text) as -> by lia);
      intros V; (split; [lia|exact V]). }
  rewrite percentShown_everything in E by lia.
  injection E as <- <- <-.
  split; [exact Hend|]. split; [reflexivity|].
  unfold continuation_notice. now rewrite number_toString_int.
Qed.

Lemma continuation_notice_reports_100_witness :
  (0 < 4
   /\ paginate_view "0123456789" (Js.int 8) (Js.int 4)
      = Page "89" (Continuation (Js.int 8) (percentShown (Js.int 10) 10)))
  /\ percentShown (Js.int 10) 10 = Js.Finite 100.
Proof.
  split; [split; vm_compute; reflexivity|].
  apply (continuation_notice_reports_100 "0123456789" 8 4 "89" (Js.int 8)
           (percentShown (Js.int 10) 10) eq_refl).
  vm_compute. reflexivity.
Defined.

(** C10 as stated does not hold for fractions, which the schema lets
    through.  With [maxLength = 2.5] the slice at 2 has two code units,
    which is not 2.5, so the notice without a cursor is appended in the
    middle of the text and reports 40 percent; with [startIndex = 8.5]
    the slice is ["89"] and the notice reports 105 percent. *)
Lemma continuation_notice_below_100 :
  Zod.number [Zod.gt (Js.int 0); Zod.lt (Js.int 1000000)] "max_length"
    (JsonNumber two_and_a_half) = inr two_and_a_half
  /\ Zod.number [Zod.gte (Js.int 0)] "start_index"
       (JsonNumber eight_and_a_half) = inr eight_and_a_half
  /\ paginate_view "0123456789" (Js.int 2) two_and_a_half
  = Page "23" (Continuation (Js.int 2) (Js.Finite 40))
  /\ paginate "0123456789" (Js.int 2) two_and_a_half
     = "23" ++ Js.LF ++ Js.LF
       ++ "<e>Showing content from index 2 (40% of total).</e>"
  /\ paginate_view "0123456789" eight_and_a_half (Js.int 4)
     = Page "89" (Continuation eight_and_a_half (Js.Finite 105))
  /\ paginate "0123456789" eight_and_a_half (Js.int 4)
     = "89" ++ Js.LF ++ Js.LF
       ++ "<e>Showing content from index 8.5 (105% of total).</e>".
Proof. repeat split; vm_compute; reflexivity. Qed.

End PaginatorFacts.

(* ================================================================== *)
(** * The retrying fetcher *)
(* ================================================================== *)

Section EffFacts.

Lemma bind_emit {B : Type} (e : Event) (k : unit -> Eff B) :
  bind (emit e) k = (value (k tt), e :: trace (k tt)).
Proof. unfold bind, emit, value, trace. now destruct (k tt). Qed.

Lemma bind_value_trace {A B : Type} (m : Eff A) (k : A -> Eff B) :
  bind m k
  = (value (k (value m)), (trace m ++ trace (k (value m)))%list).
Proof.
  unfold bind, value, trace. destruct m as [a t1]. cbn.
  now destruct (k a).
Qed.

End EffFacts.

(** The facts of this section hold for every number [retries]; the
    loop's two tests [attempt <= retries] and [attempt < retries] are
    tests of the integer [attempt] against the floor and against the
    ceiling of [retries]. *)
Section FetcherFacts.

Variable env : Environment.
Variables url user_agent : string.
Variables timeout retries : Js.number.

Local Abbreviation loop := (fetch_loop env url user_agent timeout retries).
Local Abbreviation request := (Request url user_agent timeout).

(** The loop's own test accepts every network failure. *)
Lemma NetworkFailure_retried (o : FetchOutcome) :
  NetworkFailure o ->
  exists t, o = Rejected t
            /\ isNetworkError (as_error t) || isTimeout (as_error t) = true.
Proof.
  intros [msg|name msg H|]; eexists; (split; [reflexivity|]).
  - unfold isTimeout. cbn. apply orb_true_r.
  - unfold isNetworkError. cbn. now rewrite H.
  - reflexivity.
Qed.

(** The error made from a non-2xx status is never retried. *)
Lemma http_error_not_retried (status : Z) :
  let e := mkError "Error" ("HTTP error! status: " ++ Js.toString status) in
  isNetworkError e || isTimeout e = false.
Proof. reflexivity. Qed.

(** One iteration that ends in a retried failure. *)
Lemma loop_retry (fuel : nat) (attempt : Z) (lastError : option JsError)
    (t : Thrown) :
  attempt < Qceiling retries ->
  net env attempt = Rejected t ->
  isNetworkError (as_error t) || isTimeout (as_error t) = true ->
  loop (S fuel) attempt lastError
  = (value (loop fuel (attempt + 1) (Some (as_error t))),
     request attempt :: Pause 1000
       :: trace (loop fuel (attempt + 1) (Some (as_error t)))).
Proof.
  intros Ha Hn Hr. cbn [fetch_loop].
  pose proof (ceiling_le_floor_succ retries).
  rewrite leb_int_floor, ltb_int_ceiling.
  destruct (Z.leb_spec attempt (Qfloor retries)); [|lia].
  rewrite bind_emit, Hn, Hr.
  destruct (Z.ltb_spec attempt (Qceiling retries)); [|lia].
  cbn [andb]. rewrite bind_emit. reflexivity.
Qed.

(** One iteration that ends the loop with a failure: no further attempt
    is admitted, or the error is not retried. *)
Lemma loop_give_up (fuel : nat) (attempt : Z) (lastError : option JsError)
    (t : Thrown) :
  attempt <= Qfloor retries ->
  net env attempt = Rejected t ->
  Qceiling retries <= attempt
  \/ isNetworkError (as_error t) || isTimeout (as_error t) = false ->
  loop (S fuel) attempt lastError
  = (Some (exhausted retries (Some (as_error t))), [request attempt]).
Proof.
  intros Ha Hn Hstop. cbn [fetch_loop].
  rewrite leb_int_floor, ltb_int_ceiling.
  destruct (Z.leb_spec attempt (Qfloor retries)); [|lia].
  rewrite bind_emit, Hn.
  assert ((attempt <? Qceiling retries)
          && (isNetworkError (as_error t) || isTimeout (as_error t))
          = false) as ->.
  { destruct Hstop as [Hc| ->]; [|apply andb_false_r].
    destruct (Z.ltb_spec attempt (Qceiling retries)); [lia|reflexivity]. }
  reflexivity.
Qed.

(** One iteration that gets a non-2xx response. *)
Lemma loop_http_error (fuel : nat) (attempt : Z)
    (lastError : option JsError) (status : Z) (header : option string)
    (body : string) :
  attempt <= Qfloor retries ->
  net env attempt = Responded status header body ->
  response_ok status = false ->
  loop (S fuel) attempt lastError
  = (Some (exhausted retries
             (Some (mkError "Error"
                      ("HTTP error! status: " ++ Js.toString status)))),
     [request attempt]).
Proof.
  intros Ha Hn Hok. cbn [fetch_loop].
  rewrite leb_int_floor.
  destruct (Z.leb_spec attempt (Qfloor retries)); [|lia].
  rewrite bind_emit, Hn, Hok. cbn [negb].
  rewrite http_error_not_retried, andb_false_r. reflexivity.
Qed.

(** One iteration that gets a 2xx response. *)
Lemma loop_success (fuel : nat) (attempt : Z) (lastError : option JsError)
    (status : Z) (header : option string) (body : string) :
  attempt <= Qfloor retries ->
  net env attempt = Responded status header body ->
  response_ok status = true ->
  loop (S fuel) attempt lastError
  = (Some (body, match header with
                 | Some h => if Js.truthy h then h else ""
                 | None => ""
                 end),
     [request attempt]).
Proof.
  intros Ha Hn Hok. cbn [fetch_loop].
  rewrite leb_int_floor.
  destruct (Z.leb_spec attempt (Qfloor retries)); [|lia].
  rewrite bind_emit, Hn, Hok. reflexivity.
Qed.

(** The loop is over when [attempt] is past [retries]. *)
Lemma loop_over (fuel : nat) (attempt : Z) (lastError : option JsError) :
  Qfloor retries < attempt ->
  loop fuel attempt lastError = (Some (exhausted retries lastError), []).
Proof.
  intros Ha.
  destruct fuel; cbn [fetch_loop]; rewrite leb_int_floor;
    (destruct (Z.leb_spec attempt (Qfloor retries)); [lia|reflexivity]).
Qed.

(** The fuel given by [fetch_url] is never used up: the loop always
    returns a pair, never [null]. *)
Lemma loop_returns (fuel : nat) :
  forall (attempt : Z) (lastError : option JsError),
    Qfloor retries + 1 - attempt <= Z.of_nat fuel ->
    exists r, value (loop fuel attempt lastError) = Some r.
Proof.
  induction fuel as [|fuel IH]; intros attempt lastError Hf.
  - rewrite loop_over by lia. eexists. reflexivity.
  - destruct (Z.leb_spec attempt (Qfloor retries)) as [Ha|Ha].
    + destruct (net env attempt) as [status header body|t] eqn:Hn.
      * destruct (response_ok status) eqn:Hok.
        -- rewrite (loop_success _ _ _ _ _ _ Ha Hn Hok).
           eexists. reflexivity.
        -- rewrite (loop_http_error _ _ _ _ _ _ Ha Hn Hok).
           eexists. reflexivity.
      * destruct (Z.le_gt_cases (Qceiling retries) attempt) as [He|He].
        -- rewrite (loop_give_up _ _ _ _ Ha Hn (or_introl He)).
           eexists. reflexivity.
        -- destruct (isNetworkError (as_error t) || isTimeout (as_error t))
             eqn:Hr.
           ++ rewrite (loop_retry _ _ _ _ He Hn Hr).
              apply IH. lia.
           ++ rewrite (loop_give_up _ _ _ _ Ha Hn (or_intror Hr)).
              eexists. reflexivity.
    + rewrite loop_over by lia. eexists. reflexivity.
Qed.

Lemma fetch_url_returns :
  exists r, value (fetch_url env url user_agent timeout retries) = Some r.
Proof. apply loop_returns. lia. Qed.

(** The fetcher never calls the simplifier. *)
Lemma loop_no_simplify (fuel : nat) :
  forall (attempt : Z) (lastError : option JsError),
    filter is_simplify (trace (loop fuel attempt lastError)) = [].
Proof.
  induction fuel as [|fuel IH]; intros attempt lastError.
  - cbn [fetch_loop]. now destruct (Js.leb _ _).
  - cbn [fetch_loop]. destruct (Js.leb _ _); [|reflexivity].
    rewrite bind_emit. cbn [trace snd filter is_simplify].
    destruct (net env attempt) as [status header body|t].
    + destruct (negb (response_ok status)); [|reflexivity].
      destruct (_ && _); [|reflexivity].
      rewrite bind_emit. cbn [trace snd filter is_simplify]. apply IH.
    + destruct (_ && _); [|reflexivity].
      rewrite bind_emit. cbn [trace snd filter is_simplify]. apply IH.
Qed.

(** When [k] network failures are followed by a 2xx response within the
    admitted attempts, the loop returns that response. *)
Lemma loop_eventual_success (k : nat) :
  forall (fuel : nat) (attempt : Z) (lastError : option JsError)
         (status : Z) (header : option string) (body : string),
    0 <= attempt -> attempt + Z.of_nat k <= Qfloor retries ->
    (k < fuel)%nat ->
    (forall j, attempt <= j < attempt + Z.of_nat k ->
               NetworkFailure (net env j)) ->
    net env (attempt + Z.of_nat k) = Responded status header body ->
    response_ok status = true ->
    value (loop fuel attempt lastError)
    = Some (body, match header with
                  | Some h => if Js.truthy h then h else ""
                  | None => ""
                  end).
Proof.
  pose proof (floor_le_ceiling retries) as Hfc.
  induction k as [|k IH];
    intros fuel attempt lastError status header body H0 Ha Hf Hall Hn Hok;
    (destruct fuel as [|fuel]; [lia|]).
  - rewrite Z.add_0_r in Hn, Ha.
    now rewrite (loop_success _ _ _ _ _ _ Ha Hn Hok).
  - destruct (NetworkFailure_retried _ (Hall attempt ltac:(lia)))
      as (t & Ht & Hr).
    assert (attempt < Qceiling retries) as Hlt by lia.
    rewrite (loop_retry _ _ _ _ Hlt Ht Hr). cbn [value fst].
    apply (IH fuel (attempt + 1) _ status header body); try lia.
    + intros j Hj. apply Hall. lia.
    + rewrite <- Hn. f_equal. lia.
    + exact Hok.
Qed.

Lemma count_requests_intersperse (n : nat) (attempt : Z) :
  count_requests
    (intersperse (Pause 1000) (map request (Zseq attempt (S n))))
  = Z.of_nat (S n).
Proof.
  unfold count_requests. f_equal. revert attempt.
  induction n as [|n IH]; intros attempt; [reflexivity|].
  cbn [Zseq map intersperse] in *.
  cbn [filter is_request List.length]. f_equal. apply IH.
Qed.

Lemma total_pause_intersperse (n : nat) (a : Z) :
  total_pause (intersperse (Pause 1000) (map request (Zseq a (S n))))
  = 1000 * Z.of_nat n.
Proof.
  revert a. induction n as [|n IH]; intros a; [reflexivity|].
  change (total_pause
            (request a :: Pause 1000
               :: intersperse (Pause 1000) (map request (Zseq (a + 1) (S n))))
          = 1000 * Z.of_nat (S n)).
  cbn [total_pause]. rewrite IH. lia.
Qed.

End FetcherFacts.

(** For an integer [retries] floor and ceiling are [retries] itself. *)
Section FetcherIntegerFacts.

Variable env : Environment.
Variables url user_agent : string.
Variable timeout : Js.number.
Variable retries : Z.

Local Abbreviation loop :=
  (fetch_loop env url user_agent timeout (Js.int retries)).
Local Abbreviation request := (Request url user_agent timeout).

(** When every admitted attempt from [attempt] on is a network failure,
    the loop makes all of them, pausing one second between two, and
    ends with the failure body. *)
Lemma loop_all_fail (n : nat) :
  forall (fuel : nat) (attempt : Z) (lastError : option JsError),
    attempt + Z.of_nat n = retries ->
    (n < fuel)%nat ->
    (forall k, attempt <= k <= retries -> NetworkFailure (net env k)) ->
    exists e,
      loop fuel attempt lastError
      = (Some (exhausted (Js.int retries) (Some e)),
         intersperse (Pause 1000) (map request (Zseq attempt (S n)))).
Proof.
  induction n as [|n IH]; intros fuel attempt lastError Ha Hf Hall;
    (destruct fuel as [|fuel]; [lia|]);
    destruct (NetworkFailure_retried _ (Hall attempt ltac:(lia)))
      as (t & Hn & Hr).
  - exists (as_error t).
    rewrite (loop_give_up env url user_agent timeout (Js.int retries)
               fuel attempt lastError t);
      rewrite ?floor_int, ?ceiling_int; try lia; [reflexivity|exact Hn].
  - destruct (IH fuel (attempt + 1) (Some (as_error t)))
      as (e & E); [lia|lia|intros; apply Hall; lia|].
    exists e.
    rewrite (loop_retry env url user_agent timeout (Js.int retries)
               fuel attempt lastError t);
      rewrite ?ceiling_int; try lia; try assumption.
    rewrite E. reflexivity.
Qed.

End FetcherIntegerFacts.

Section FetcherProperties.

Variable env : Environment.
Variables url user_agent : string.
Variable timeout : Js.number.
Variable retries : Z.

(** C4, for an integer [retries].  With an integer [retries >= 0]: if
    every admitted attempt is a network failure or a timeout, the
    fetcher makes the attempts 0 .. [retries], that is [retries + 1] of
    them, with one pause of 1000 ms between two consecutive attempts and
    nothing else, and returns a failure body; if the first attempt gets a
    non-2xx status, the fetcher makes that one attempt, does not pause
    and returns the failure body. *)
Theorem retry_bound :
  0 <= retries ->
  let run := fetch_url env url user_agent timeout (Js.int retries) in
  ((forall k, 0 <= k <= retries -> NetworkFailure (net env k)) ->
   trace run
   = intersperse (Pause 1000)
       (map (Request url user_agent timeout)
          (Zseq 0 (Z.to_nat (retries + 1))))
   /\ count_requests (trace run) = retries + 1
   /\ total_pause (trace run) = 1000 * retries
   /\ exists message,
        value run
        = Some ("<e>Failed to fetch: " ++ message ++ " after "
                  ++ Js.toString (retries + 1) ++ " attempts</e>",
                "text/plain"))
  /\ (forall status header body,
        net env 0 = Responded status header body ->
        response_ok status = false ->
        trace run = [Request url user_agent timeout 0]
        /\ count_requests (trace run) = 1
        /\ value run
           = Some ("<e>Failed to fetch: HTTP error! status: "
                     ++ Js.toString status ++ " after "
                     ++ Js.toString (retries + 1) ++ " attempts</e>",
                   "text/plain")).
Proof.
  intros Hr run. unfold run, fetch_url. rewrite floor_int.
  replace (Z.to_nat (retries + 1)) with (S (Z.to_nat retries)) by lia.
  split.
  - intros Hall.
    destruct (loop_all_fail env url user_agent timeout retries
                (Z.to_nat retries) (S (Z.to_nat retries)) 0 None)
      as (e & E); [lia|lia|exact Hall|].
    rewrite E. cbn [trace value fst snd]. split; [reflexivity|]. split.
    + rewrite count_requests_intersperse. lia.
    + split.
      * rewrite total_pause_intersperse. lia.
      * unfold exhausted. rewrite add_int, number_toString_int.
        eexists. reflexivity.
  - intros status header body Hn Hok.
    rewrite (loop_http_error env url user_agent timeout (Js.int retries)
               _ 0 None status header body);
      rewrite ?floor_int; try assumption.
    unfold exhausted. rewrite add_int, number_toString_int.
    repeat split.
Qed.

End FetcherProperties.

Lemma retry_bound_witness :
  0 <= 2
  /\ (forall k, 0 <= k <= 2 -> NetworkFailure (net (always network_down) k))
  /\ count_requests
       (trace (fetch_url (always network_down) "http://a.example/" USER_AGENT
                 (Js.int 10000) (Js.int 2))) = 3
  /\ trace (fetch_url (always (Responded 404 None "Not Found"))
              "http://a.example/" USER_AGENT (Js.int 10000) (Js.int 2))
     = [Request "http://a.example/" USER_AGENT (Js.int 10000) 0].
Proof.
  assert (H : forall k : Z, 0 <= k <= 2 ->
                NetworkFailure (net (always network_down) k))
    by (intros k _; apply network_error; reflexivity).
  split; [discriminate|]. split; [exact H|]. split.
  - apply (retry_bound (always network_down) "http://a.example/" USER_AGENT
             (Js.int 10000) 2 ltac:(discriminate)).
    exact H.
  - apply (proj2 (retry_bound (always (Responded 404 None "Not Found"))
                    "http://a.example/" USER_AGENT (Js.int 10000) 2
                    ltac:(discriminate))
             404 None "Not Found" eq_refl eq_refl).
Defined.

(** C4 as stated does not hold for a fraction, which the schema lets
    through.  With [retries = 1.5] and a network that is down, the loop
    admits the attempts 0 and 1 (2 is not [<= 1.5]): it makes 2 attempts,
    not 2.5; attempt 1 is still [< 1.5], so the loop pauses after the
    last attempt as well; and the body reports 2.5 attempts. *)
Lemma retry_bound_fraction :
  let run :=
    fetch_url (always network_down) "http://a.example/" USER_AGENT
      (Js.int 10000) one_and_a_half in
  Zod.number [Zod.gte (Js.int 0); Zod.lte (Js.int 5)] "retries"
    (JsonNumber one_and_a_half) = inr one_and_a_half
  /\ (forall k, NetworkFailure (net (always network_down) k))
  /\ trace run
     = [Request "http://a.example/" USER_AGENT (Js.int 10000) 0; Pause 1000;
        Request "http://a.example/" USER_AGENT (Js.int 10000) 1; Pause 1000]
  /\ count_requests (trace run) = 2
  /\ ~ (Js.int (count_requests (trace run))
        == Js.add one_and_a_half (Js.int 1))%Q
  /\ total_pause (trace run) = 2000
  /\ value run
     = Some ("<e>Failed to fetch: fetch failed after 2.5 attempts</e>",
             "text/plain").
Proof.
  cbv zeta. split; [reflexivity|]. split.
  { intros k. apply network_error. reflexivity. }
  repeat split; try (vm_compute; reflexivity).
  vm_compute. discriminate.
Qed.

(** The parts of the failure body: a timeout reads [Request timed out],
    any other error reads as its message, and the content type is
    [text/plain]. *)
Lemma exhausted_timeout (retries : Js.number) (msg : string) :
  exhausted retries (Some (mkError "AbortError" msg))
  = ("<e>Failed to fetch: Request timed out after "
       ++ Js.number_toString (Js.add retries (Js.int 1)) ++ " attempts</e>",
     "text/plain").
Proof. reflexivity. Qed.

Lemma exhausted_other (retries : Js.number) (e : JsError) :
  isTimeout e = false ->
  exhausted retries (Some e)
  = ("<e>Failed to fetch: " ++ message e ++ " after "
       ++ Js.number_toString (Js.add retries (Js.int 1)) ++ " attempts</e>",
     "text/plain").
Proof. unfold isTimeout, exhausted. now intros ->. Qed.

(** The count in the body for an integer [retries]. *)
Lemma exhausted_int (retries : Z) (e : JsError) :
  exhausted (Js.int retries) (Some e)
  = ("<e>Failed to fetch: "
       ++ (if isTimeout e then "Request timed out" else message e)
       ++ " after " ++ Js.toString (retries + 1) ++ " attempts</e>",
     "text/plain").
Proof.
  unfold exhausted, isTimeout. now rewrite add_int, number_toString_int.
Qed.

Example timeout_failure_body :
  fetch_url (always timed_out) "http://a.example/" USER_AGENT (Js.int 10000)
    (Js.int 1)
  = (Some ("<e>Failed to fetch: Request timed out after 2 attempts</e>",
           "text/plain"),
     [Request "http://a.example/" USER_AGENT (Js.int 10000) 0; Pause 1000;
      Request "http://a.example/" USER_AGENT (Js.int 10000) 1]).
Proof. vm_compute. reflexivity. Qed.

(** The count is a sum in binary64: with [retries = 0.57] the body
    reads [1.5699999999999998 attempts]. *)
Example fraction_failure_body :
  value (fetch_url (always (Responded 404 None "")) "http://a.example/"
           USER_AGENT (Js.int 10000) (Js.round64 (57 # 100)))
  = Some ("<e>Failed to fetch: HTTP error! status: 404 after 1.5699999999999998 attempts</e>",
          "text/plain").
Proof. vm_compute. reflexivity. Qed.

(** C5.  The failure body says [after retries + 1 attempts] also when the
    loop stopped early: with [retries = 2] and a 404 on the first attempt
    the fetcher makes one attempt and reports three. *)
Theorem failure_body_attempts_overstated :
  let run :=
    fetch_url (always (Responded 404 None "Not Found"))
      "http://a.example/missing" USER_AGENT (Js.int 10000) (Js.int 2) in
  value run
  = Some ("<e>Failed to fetch: HTTP error! status: 404 after 3 attempts</e>",
          "text/plain")
  /\ count_requests (trace run) = 1.
Proof. vm_compute. split; reflexivity. Qed.

(* ================================================================== *)
(** * The classifier *)
(* ================================================================== *)

Section ClassifierFacts.

(** The guard [contentType && ...] of [isBinary] adds nothing: the
    empty string contains none of the five markers. *)
Lemma isBinary_markers (contentType : string) :
  isBinary contentType
  = Js.includes contentType "image/"
    || Js.includes contentType "audio/"
    || Js.includes contentType "video/"
    || Js.includes contentType "application/"
    || Js.includes contentType "font/".
Proof. unfold isBinary. now destruct contentType. Qed.

Lemma truthy_false_empty (s : string) : negb (Js.truthy s) = true <-> s = "".
Proof. destruct s; cbn; split; intros; congruence. Qed.

(** A body that starts with [<!DOCTYPE html><html>] is sniffed as HTML:
    the marker lies within the first 100 code units. *)
Lemma doctype_prefix_sniffed (rest : string) :
  Js.includes
    (Js.toLowerCase
       (Js.substring ("<!DOCTYPE html><html>" ++ rest) (Js.int 0)
          (Js.int 100))) "<html"
  = true.
Proof.
  unfold Js.substring, Js.clamp, Js.length. rewrite !trunc_int.
  set (len := Z.of_nat (String.length ("<!DOCTYPE html><html>" ++ rest))).
  assert (21 <= len) as Hlen by (unfold len; cbn [String.length append]; lia).
  replace (Z.to_nat (Z.min (Z.min (Z.max 0 0) len) (Z.min (Z.max 100 0) len)))
    with O by lia.
  assert (exists n,
             Z.to_nat
               (Z.max (Z.min (Z.max 0 0) len) (Z.min (Z.max 100 0) len)
                - Z.min (Z.min (Z.max 0 0) len) (Z.min (Z.max 100 0) len))
             = (21 + n)%nat) as [n ->].
  { exists (Z.to_nat (Z.min 100 len) - 21)%nat. lia. }
  reflexivity.
Qed.

(** C6 (as the code has it).  Binary exactly when the content type
    contains one of the five markers; otherwise Html exactly when the
    lower-cased first 100 code units of the body contain [<html], or the
    lower-cased content type contains [text/html], or the content type
    is empty; otherwise PlainText.  [application/pdf] is Binary, a body
    starting with [<!DOCTYPE html><html>] served as [text/plain] is
    Html, and an empty content type is Html. *)
Theorem classify_spec (pageRaw contentType : string) :
  let binary :=
    Js.includes contentType "image/" = true
    \/ Js.includes contentType "audio/" = true
    \/ Js.includes contentType "video/" = true
    \/ Js.includes contentType "application/" = true
    \/ Js.includes contentType "font/" = true in
  let html :=
    Js.includes
      (Js.toLowerCase (Js.substring pageRaw (Js.int 0) (Js.int 100))) "<html"
    = true
    \/ Js.includes (Js.toLowerCase contentType) "text/html" = true
    \/ contentType = "" in
  (classify pageRaw contentType = Binary <-> binary)
  /\ (classify pageRaw contentType = Html <-> ~ binary /\ html)
  /\ (classify pageRaw contentType = PlainText <-> ~ binary /\ ~ html)
  /\ classify pageRaw "application/pdf" = Binary
  /\ classify ("<!DOCTYPE html><html>" ++ pageRaw) "text/plain" = Html
  /\ classify pageRaw "" = Html.
Proof.
  intros binary html.
  assert (Hb : isBinary contentType = true <-> binary).
  { rewrite isBinary_markers, !orb_true_iff. unfold binary. tauto. }
  assert (Hh : isPageHtml pageRaw contentType = true <-> html).
  { unfold isPageHtml, html.
    rewrite !orb_true_iff, truthy_false_empty. tauto. }
  assert ((classify pageRaw contentType = Binary <-> binary)
          /\ (classify pageRaw contentType = Html <-> ~ binary /\ html)
          /\ (classify pageRaw contentType = PlainText
              <-> ~ binary /\ ~ html)) as (H1 & H2 & H3).
  { unfold classify.
    destruct (isBinary contentType) eqn:Eb;
      [|destruct (isPageHtml pageRaw contentType) eqn:Eh].
    - assert binary by now apply Hb.
      repeat split; intros; try discriminate; tauto.
    - assert (~ binary) by (rewrite <- Hb; discriminate).
      assert html by now apply Hh.
      repeat split; intros; try discriminate; tauto.
    - assert (~ binary) by (rewrite <- Hb; discriminate).
      assert (~ html) by (rewrite <- Hh; discriminate).
      repeat split; intros; try discriminate; tauto. }
  split; [exact H1|]. split; [exact H2|]. split; [exact H3|].
  split; [reflexivity|]. split.
  - unfold classify, isPageHtml.
    change (isBinary "text/plain") with false.
    now rewrite doctype_prefix_sniffed.
  - unfold classify, isPageHtml.
    change (isBinary "") with false. cbn. now rewrite orb_true_r.
Qed.

(** C6, as worded, fails on a content type written in capitals: the
    code lower-cases the content type before it looks for
    [text/html]. *)
Lemma classify_capitals :
  classify "plain words" "Text/HTML; charset=utf-8" = Html
  /\ ~ (Js.includes
          (Js.toLowerCase
             (Js.substring "plain words" (Js.int 0) (Js.int 100))) "<html"
        = true
        \/ Js.includes "Text/HTML; charset=utf-8" "text/html" = true
        \/ "Text/HTML; charset=utf-8" = "")
  /\ classify_as_documented "plain words" "Text/HTML; charset=utf-8"
     = PlainText.
Proof.
  split; [reflexivity|]. split; [|reflexivity].
  intros [H|[H|H]]; vm_compute in H; discriminate.
Qed.

End ClassifierFacts.

(* ================================================================== *)
(** * The tool *)
(* ================================================================== *)

Section ToolFacts.

Variable env : Environment.
Variable url : string.
Variables maxLength startIndex : Js.number.
Variable raw : bool.
Variables timeout retries : Js.number.

Local Abbreviation fetched := (fetch_url env url USER_AGENT timeout retries).
Local Abbreviation run :=
  (call_fetch env url maxLength startIndex raw timeout retries).

Lemma call_fetch_value :
  value run = value (after_fetch env url maxLength startIndex raw
                       (value fetched)).
Proof. unfold call_fetch. now rewrite bind_value_trace. Qed.

Lemma call_fetch_trace :
  trace run
  = (trace fetched
     ++ trace (after_fetch env url maxLength startIndex raw
                 (value fetched)))%list.
Proof. unfold call_fetch. now rewrite bind_value_trace. Qed.

(** The text that gets paginated. *)
Lemma after_fetch_envelope (pageRaw contentType : string) :
  pageRaw <> "" ->
  isBinary contentType && negb raw = false ->
  value (after_fetch env url maxLength startIndex raw
           (Some (pageRaw, contentType)))
  = let content :=
      if isPageHtml pageRaw contentType && negb raw
      then extractContentFromHtml env pageRaw else pageRaw in
    text_result
      (envelope contentType (Js.length content) url
         (paginate content startIndex maxLength)).
Proof.
  intros Hne Hb. cbn [after_fetch].
  destruct pageRaw as [|c rest]; [congruence|]. cbn [Js.truthy negb].
  rewrite Hb, bind_value_trace.
  destruct (isPageHtml _ _ && negb raw); [rewrite bind_emit|]; reflexivity.
Qed.

(** What the fetcher hands over is a 2xx response body with its
    content type, or the tagged failure body as [text/plain]. *)
Lemma loop_value_cases (fuel : nat) :
  forall (attempt : Z) (lastError : option JsError),
    0 <= attempt ->
    Qfloor retries + 1 - attempt <= Z.of_nat fuel ->
    exists pageRaw contentType,
      value (fetch_loop env url USER_AGENT timeout retries fuel attempt
               lastError) = Some (pageRaw, contentType)
      /\ ((exists k status header,
             0 <= k <= Qfloor retries
             /\ net env k = Responded status header pageRaw
             /\ response_ok status = true
             /\ contentType = match header with
                              | Some h => if Js.truthy h then h else ""
                              | None => ""
                              end)
          \/ (exists e, (pageRaw, contentType) = exhausted retries e)).
Proof.
  induction fuel as [|fuel IH]; intros attempt lastError H0 Hf.
  - rewrite loop_over by lia.
    destruct (exhausted retries lastError) as [p c] eqn:E.
    exists p, c. split; [reflexivity|]. right. now exists lastError.
  - destruct (Z.leb_spec attempt (Qfloor retries)) as [Ha|Ha].
    + destruct (net env attempt) as [status header body|t] eqn:Hn.
      * destruct (response_ok status) eqn:Hok.
        -- rewrite (loop_success _ _ _ _ _ _ _ _ _ _ _ Ha Hn Hok).
           do 2 eexists. split; [reflexivity|]. left.
           exists attempt, status, header. repeat split; (lia || assumption).
        -- rewrite (loop_http_error _ _ _ _ _ _ _ _ _ _ _ Ha Hn Hok).
           destruct (exhausted retries _) as [p c] eqn:E.
           exists p, c. split; [reflexivity|]. right. eexists.
           now rewrite E.
      * destruct (Z.le_gt_cases (Qceiling retries) attempt) as [He|He].
        -- rewrite (loop_give_up _ _ _ _ _ _ _ _ _ Ha Hn (or_introl He)).
           destruct (exhausted retries _) as [p c] eqn:E.
           exists p, c. split; [reflexivity|]. right. eexists.
           now rewrite E.
        -- destruct (isNetworkError (as_error t) || isTimeout (as_error t))
             eqn:Hr.
           ++ rewrite (loop_retry _ _ _ _ _ _ _ _ _ He Hn Hr).
              apply IH; lia.
           ++ rewrite (loop_give_up _ _ _ _ _ _ _ _ _ Ha Hn (or_intror Hr)).
              destruct (exhausted retries _) as [p c] eqn:E.
              exists p, c. split; [reflexivity|]. right. eexists.
              now rewrite E.
    + rewrite loop_over by lia.
      destruct (exhausted retries lastError) as [p c] eqn:E.
      exists p, c. split; [reflexivity|]. right. now exists lastError.
Qed.

Lemma exhausted_tagged (e : option JsError) :
  tagged (fst (exhausted retries e))
  /\ snd (exhausted retries e) = "text/plain".
Proof.
  destruct e as [e|]; cbn [exhausted fst snd]; (split; [|reflexivity]).
  - exists ("Failed to fetch: "
            ++ (if String.eqb (name e) "AbortError"
                then "Request timed out" else message e)
            ++ " after " ++ Js.number_toString (Js.add retries (Js.int 1))
            ++ " attempts").
    now rewrite !append_assoc.
  - now exists "Failed to fetch: Unknown error".
Qed.


End ToolFacts.

Section ToolProperties.

Variable env : Environment.
Variable url : string.
Variables maxLength startIndex : Js.number.
Variables timeout retries : Js.number.

(** C7 (as the code has it).  When the fetcher hands over a non-empty
    body whose content type is classified Binary and the caller did not
    ask for raw mode, the tool returns the refusal, which names the
    content type and tells the caller to pass [raw=true]; nothing
    happens after the fetch, so the simplifier is not called. *)
Theorem binary_refusal_short_circuit (pageRaw contentType : string) :
  value (fetch_url env url USER_AGENT timeout retries)
  = Some (pageRaw, contentType) ->
  pageRaw <> "" ->
  classify pageRaw contentType = Binary ->
  let run := call_fetch env url maxLength startIndex false timeout retries in
  value run
  = text_result
      ("<e>This URL contains binary content (" ++ contentType
       ++ ") which cannot be displayed as text. Use raw=true to get the binary data.</e>")
  /\ trace run = trace (fetch_url env url USER_AGENT timeout retries)
  /\ forall html, ~ In (Simplify html) (trace run).
Proof.
  intros Hf Hne Hc run.
  assert (isBinary contentType = true) as Hb.
  { revert Hc. unfold classify. destruct (isBinary contentType); [easy|].
    destruct (isPageHtml _ _); discriminate. }
  assert (after_fetch env url maxLength startIndex false
            (Some (pageRaw, contentType))
          = ret (text_result (binary_refusal contentType))) as Ha.
  { cbn [after_fetch]. destruct pageRaw; [congruence|].
    cbn [Js.truthy negb]. now rewrite Hb. }
  assert (trace run = trace (fetch_url env url USER_AGENT timeout retries))
    as Ht.
  { unfold run. rewrite call_fetch_trace, Hf, Ha. apply app_nil_r. }
  split; [|split].
  - unfold run. now rewrite call_fetch_value, Hf, Ha.
  - exact Ht.
  - intros html Hin. rewrite Ht in Hin.
    assert (In (Simplify html)
              (filter is_simplify
                 (trace (fetch_url env url USER_AGENT timeout retries))))
      as Hin' by (apply filter_In; split; [exact Hin|reflexivity]).
    unfold fetch_url in Hin'. now rewrite loop_no_simplify in Hin'.
Qed.

(** C9.  When a 2xx response with an empty body is reached (after any
    number of retried network failures), the tool returns the single
    text [Failed to get page text], for every [startIndex], [maxLength]
    and [raw]; that text is neither the sentinel nor an envelope. *)
Theorem empty_body_reported (raw : bool) (k status : Z)
    (header : option string) :
  0 <= k /\ (Js.int k <= retries)%Q ->
  (forall j, 0 <= j < k -> NetworkFailure (net env j)) ->
  net env k = Responded status header "" ->
  response_ok status = true ->
  let result :=
    value (call_fetch env url maxLength startIndex raw timeout retries) in
  result = text_result "Failed to get page text"
  /\ forall block, In block (content result) ->
       text block <> "<e>No more content available.</e>"
       /\ forall contentType originalLength paginated,
            text block
            <> envelope contentType originalLength url paginated.
Proof.
  intros [Hk Hkr] Hall Hn Hok result. apply int_le_floor in Hkr.
  assert (result = text_result "Failed to get page text") as ->.
  { unfold result. rewrite call_fetch_value. unfold fetch_url.
    rewrite (loop_eventual_success env url USER_AGENT timeout retries
               (Z.to_nat k) (Z.to_nat (Qfloor retries + 1)) 0 None status
               header "");
      try reflexivity; try assumption; try lia.
    - intros j Hj. apply Hall. lia.
    - rewrite <- Hn. f_equal. lia. }
  split; [reflexivity|].
  intros block [<-|[]]. split; [discriminate|].
  intros contentType originalLength paginated. discriminate.
Qed.


End ToolProperties.

Lemma binary_refusal_short_circuit_witness :
  let env := always (Responded 200 (Some "image/png") "PNG") in
  let url := "http://a.example/pixel.png" in
  (value (fetch_url env url USER_AGENT (Js.int 10000) (Js.int 2))
   = Some ("PNG", "image/png")
   /\ "PNG" <> ""
   /\ classify "PNG" "image/png" = Binary)
  /\ value (call_fetch env url (Js.int 5000) (Js.int 0) false (Js.int 10000)
              (Js.int 2))
     = text_result
         "<e>This URL contains binary content (image/png) which cannot be displayed as text. Use raw=true to get the binary data.</e>".
Proof.
  split; [repeat split; discriminate|].
  apply (binary_refusal_short_circuit
           (always (Responded 200 (Some "image/png") "PNG"))
           "http://a.example/pixel.png" (Js.int 5000) (Js.int 0)
           (Js.int 10000) (Js.int 2) "PNG" "image/png"
           eq_refl ltac:(discriminate) eq_refl).
Defined.

(** C7, as worded, fails on an empty body: the guard on the body comes
    before the test on the content type. *)
Lemma binary_empty_body_not_refused :
  let env := always (Responded 200 (Some "image/png") "") in
  let url := "http://a.example/pixel.png" in
  value (fetch_url env url USER_AGENT (Js.int 10000) (Js.int 2))
  = Some ("", "image/png")
  /\ classify "" "image/png" = Binary
  /\ value (call_fetch env url (Js.int 5000) (Js.int 0) false (Js.int 10000)
              (Js.int 2))
     = text_result "Failed to get page text"
  /\ value (call_fetch env url (Js.int 5000) (Js.int 0) false (Js.int 10000)
              (Js.int 2))
     <> text_result (binary_refusal "image/png").
Proof. repeat split. discriminate. Qed.

Lemma empty_body_reported_witness :
  let env := always (Responded 200 (Some "text/plain") "") in
  ((0 <= 0 /\ (Js.int 0 <= Js.int 2)%Q)
   /\ (forall j, 0 <= j < 0 -> NetworkFailure (net env j))
   /\ net env 0 = Responded 200 (Some "text/plain") ""
   /\ response_ok 200 = true)
  /\ value (call_fetch env "http://a.example/" (Js.int 5000) (Js.int 7) true
              (Js.int 10000) (Js.int 2))
     = text_result "Failed to get page text".
Proof.
  split; [repeat split; try discriminate; intros j Hj; lia|].
  apply (empty_body_reported (always (Responded 200 (Some "text/plain") ""))
           "http://a.example/" (Js.int 5000) (Js.int 7) (Js.int 10000)
           (Js.int 2) true 0 200 (Some "text/plain")).
  - split; discriminate.
  - intros j Hj. lia.
  - reflexivity.
  - reflexivity.
Defined.


(* ================================================================== *)
(** * Further properties of the retrying fetcher *)
(* ================================================================== *)

Section FetcherBounds.

Variable env : Environment.
Variables url user_agent : string.
Variables timeout retries : Js.number.

Local Abbreviation loop := (fetch_loop env url user_agent timeout retries).
Local Abbreviation request := (Request url user_agent timeout).

Lemma floor_nonneg : (0 <= retries)%Q -> 0 <= Qfloor retries.
Proof. intros H. now apply (int_le_floor 0). Qed.

(** Whatever the network does, from [attempt] on the loop makes at most
    one attempt for each integer up to [retries] and pauses at most once
    for each integer below [retries]. *)
Lemma loop_effect_bounds (fuel : nat) :
  forall (attempt : Z) (lastError : option JsError),
    count_requests (trace (loop fuel attempt lastError))
    <= Z.max 0 (Qfloor retries + 1 - attempt)
    /\ total_pause (trace (loop fuel attempt lastError))
       <= 1000 * Z.max 0 (Qceiling retries - attempt).
Proof.
  pose proof (floor_le_ceiling retries) as Hfc.
  assert (one : forall a : Z, a <= Qfloor retries ->
            count_requests [request a]
            <= Z.max 0 (Qfloor retries + 1 - a)
            /\ total_pause [request a]
               <= 1000 * Z.max 0 (Qceiling retries - a)).
  { intros a Ha. unfold count_requests.
    cbn [filter is_request List.length total_pause]. lia. }
  assert (none : forall a : Z,
            count_requests [] <= Z.max 0 (Qfloor retries + 1 - a)
            /\ total_pause [] <= 1000 * Z.max 0 (Qceiling retries - a)).
  { intros a. unfold count_requests.
    cbn [filter is_request List.length total_pause]. lia. }
  induction fuel as [|fuel IH]; intros attempt lastError.
  - cbn [fetch_loop]. destruct (Js.leb _ _); apply none.
  - destruct (Z.leb_spec attempt (Qfloor retries)) as [Ha|Ha];
      [|rewrite loop_over by lia; apply none].
    destruct (net env attempt) as [status header body|t] eqn:Hn.
    + destruct (response_ok status) eqn:Hok.
      * rewrite (loop_success _ _ _ _ _ _ _ _ _ _ _ Ha Hn Hok).
        now apply one.
      * rewrite (loop_http_error _ _ _ _ _ _ _ _ _ _ _ Ha Hn Hok).
        now apply one.
    + destruct (Z.le_gt_cases (Qceiling retries) attempt) as [He|He].
      * rewrite (loop_give_up _ _ _ _ _ _ _ _ _ Ha Hn (or_introl He)).
        now apply one.
      * destruct (isNetworkError (as_error t) || isTimeout (as_error t))
          eqn:Hr.
        -- rewrite (loop_retry _ _ _ _ _ _ _ _ _ He Hn Hr).
           destruct (IH (attempt + 1) (Some (as_error t))) as [Hc Hp].
           cbn [trace snd]. unfold count_requests in *.
           cbn [filter is_request List.length total_pause].
           fold (trace (loop fuel (attempt + 1) (Some (as_error t)))).
           rewrite Nat2Z.inj_succ. lia.
        -- rewrite (loop_give_up _ _ _ _ _ _ _ _ _ Ha Hn (or_intror Hr)).
           now apply one.
Qed.

(** When [k] network failures are followed by an attempt that ends the
    loop on its own, the loop makes exactly these [k + 1] attempts. *)
Lemma loop_decided (k : nat) :
  forall (fuel : nat) (attempt : Z) (lastError : option JsError)
         (r : option (string * string)),
    attempt + Z.of_nat k <= Qfloor retries ->
    (k < fuel)%nat ->
    (forall j, attempt <= j < attempt + Z.of_nat k ->
               NetworkFailure (net env j)) ->
    (forall f last,
        loop (S f) (attempt + Z.of_nat k) last
        = (r, [request (attempt + Z.of_nat k)])) ->
    loop fuel attempt lastError
    = (r, intersperse (Pause 1000) (map request (Zseq attempt (S k)))).
Proof.
  pose proof (floor_le_ceiling retries) as Hfc.
  induction k as [|k IH]; intros fuel attempt lastError r Ha Hf Hall Hend;
    (destruct fuel as [|fuel]; [lia|]).
  - rewrite Z.add_0_r in Hend. now rewrite Hend.
  - destruct (NetworkFailure_retried _ (Hall attempt ltac:(lia)))
      as (t & Ht & Hr).
    assert (attempt < Qceiling retries) as Hlt by lia.
    rewrite (loop_retry _ _ _ _ _ _ _ _ _ Hlt Ht Hr).
    rewrite (IH fuel (attempt + 1) (Some (as_error t)) r); try lia.
    + reflexivity.
    + intros j Hj. apply Hall. lia.
    + intros f last.
      replace (attempt + 1 + Z.of_nat k) with (attempt + Z.of_nat (S k))
        by lia.
      apply Hend.
Qed.


End FetcherBounds.

Section FetcherIntegerBounds.

Variable env : Environment.
Variables url user_agent : string.
Variable timeout : Js.number.
Variable retries : Z.

Local Abbreviation loop :=
  (fetch_loop env url user_agent timeout (Js.int retries)).
Local Abbreviation request := (Request url user_agent timeout).

(** For an integer [retries], whatever the network does, from [attempt]
    on the loop makes between one and [retries + 1 - attempt] attempts,
    numbered consecutively, and puts exactly one pause of 1000 ms between
    two of them. *)
Lemma loop_trace_shape (fuel : nat) :
  forall (attempt : Z) (lastError : option JsError),
    attempt <= retries ->
    retries + 1 - attempt <= Z.of_nat fuel ->
    exists n : nat,
      Z.of_nat (S n) <= retries + 1 - attempt
      /\ trace (loop fuel attempt lastError)
         = intersperse (Pause 1000) (map request (Zseq attempt (S n))).
Proof.
  assert (Hfl : Qfloor (Js.int retries) = retries) by apply floor_int.
  assert (Hce : Qceiling (Js.int retries) = retries) by apply ceiling_int.
  induction fuel as [|fuel IH]; intros attempt lastError Ha Hf; [lia|].
  assert (attempt <= Qfloor (Js.int retries)) as Hle by lia.
  destruct (net env attempt) as [status header body|t] eqn:Hn.
  - exists O. split; [lia|].
    destruct (response_ok status) eqn:Hok.
    + now rewrite (loop_success _ _ _ _ _ _ _ _ _ _ _ Hle Hn Hok).
    + now rewrite (loop_http_error _ _ _ _ _ _ _ _ _ _ _ Hle Hn Hok).
  - destruct (Z.eq_dec attempt retries) as [He|He].
    + exists O. split; [lia|].
      assert (Qceiling (Js.int retries) <= attempt) as Hge by lia.
      now rewrite (loop_give_up _ _ _ _ _ _ _ _ _ Hle Hn (or_introl Hge)).
    + destruct (isNetworkError (as_error t) || isTimeout (as_error t))
        eqn:Hr.
      * destruct (IH (attempt + 1) (Some (as_error t))) as (n & Hb & Ht);
          [lia|lia|].
        exists (S n). split; [lia|].
        assert (attempt < Qceiling (Js.int retries)) as Hlt by lia.
        rewrite (loop_retry _ _ _ _ _ _ _ _ _ Hlt Hn Hr).
        cbn [trace snd]. fold (trace (loop fuel (attempt + 1)
                                        (Some (as_error t)))).
        rewrite Ht. reflexivity.
      * exists O. split; [lia|].
        now rewrite (loop_give_up _ _ _ _ _ _ _ _ _ Hle Hn (or_intror Hr)).
Qed.

End FetcherIntegerBounds.

(** X1.  For an integer [retries >= 0], whatever the network does,
    [fetch_url] makes the attempts 0, 1, ..., [n - 1] for some
    [1 <= n <= retries + 1], with exactly one pause of 1000 ms between
    two consecutive attempts and no other effect: it always tries once,
    never more than [retries + 1] times, and never waits more than
    [retries] seconds in total. *)
Theorem fetch_url_attempts_bounded (env : Environment)
    (url user_agent : string) (timeout : Js.number) (retries : Z) :
  0 <= retries ->
  let run := fetch_url env url user_agent timeout (Js.int retries) in
  exists n : nat,
    1 <= Z.of_nat n <= retries + 1
    /\ trace run
       = intersperse (Pause 1000)
           (map (Request url user_agent timeout) (Zseq 0 n))
    /\ count_requests (trace run) = Z.of_nat n
    /\ total_pause (trace run) = 1000 * (Z.of_nat n - 1)
    /\ total_pause (trace run) <= 1000 * retries.
Proof.
  intros Hr run.
  destruct (loop_trace_shape env url user_agent timeout retries
              (Z.to_nat (retries + 1)) 0 None) as (n & Hb & Ht); [lia|lia|].
  exists (S n). unfold run, fetch_url. rewrite floor_int, Ht.
  rewrite count_requests_intersperse, total_pause_intersperse.
  repeat split; lia.
Qed.

Lemma fetch_url_attempts_bounded_witness :
  0 <= 2
  /\ exists n : nat,
       1 <= Z.of_nat n <= 2 + 1
       /\ count_requests
            (trace (fetch_url (always network_down) "http://a.example/"
                      USER_AGENT (Js.int 10000) (Js.int 2))) = Z.of_nat n.
Proof.
  split; [discriminate|].
  destruct (fetch_url_attempts_bounded (always network_down)
              "http://a.example/" USER_AGENT (Js.int 10000) 2
              ltac:(discriminate))
    as (n & Hn & _ & Hc & _).
  exists n. split; [exact Hn|exact Hc].
Defined.

Lemma header_or_empty (header : option string) :
  match header with
  | Some h => if Js.truthy h then h else ""
  | None => ""
  end
  = match header with
    | Some h => h
    | None => ""
    end.
Proof. destruct header as [[|c h]|]; reflexivity. Qed.

(** X2.  When the first [k] attempts are network failures and attempt
    [k <= retries] gets a 2xx response, [fetch_url] returns the body of
    that response with its [content-type] header (the empty string when
    the header is missing) after exactly [k + 1] attempts: later attempts
    are not made and earlier errors leave no mark on the result.
    [retries] is any number. *)
Theorem fetch_url_first_success (env : Environment)
    (url user_agent : string) (timeout retries : Js.number) (k status : Z)
    (header : option string) (body : string) :
  0 <= k /\ (Js.int k <= retries)%Q ->
  (forall j, 0 <= j < k -> NetworkFailure (net env j)) ->
  net env k = Responded status header body ->
  response_ok status = true ->
  fetch_url env url user_agent timeout retries
  = (Some (body, match header with
                 | Some h => h
                 | None => ""
                 end),
     intersperse (Pause 1000)
       (map (Request url user_agent timeout) (Zseq 0 (S (Z.to_nat k))))).
Proof.
  intros [Hk Hkr] Hall Hn Hok. apply int_le_floor in Hkr.
  unfold fetch_url. rewrite <- header_or_empty.
  apply (loop_decided env url user_agent timeout retries (Z.to_nat k));
    try lia.
  - intros j Hj. apply Hall. lia.
  - intros f last. rewrite Z.add_0_l, Z2Nat.id by lia.
    now rewrite (loop_success env url user_agent timeout retries f k last
                   status header body ltac:(lia) Hn Hok).
Qed.

Lemma fetch_url_first_success_witness :
  let env :=
    no_article (fun attempt =>
                  if attempt =? 1 then Responded 200 None "late but fine"
                  else network_down) in
  ((0 <= 1 /\ (Js.int 1 <= Js.int 2)%Q)
   /\ (forall j, 0 <= j < 1 -> NetworkFailure (net env j))
   /\ net env 1 = Responded 200 None "late but fine"
   /\ response_ok 200 = true)
  /\ fetch_url env "http://a.example/" USER_AGENT (Js.int 10000) (Js.int 2)
     = (Some ("late but fine", ""),
        [Request "http://a.example/" USER_AGENT (Js.int 10000) 0; Pause 1000;
         Request "http://a.example/" USER_AGENT (Js.int 10000) 1]).
Proof.
  intros env.
  assert (H : forall j, 0 <= j < 1 -> NetworkFailure (net env j)).
  { intros j Hj. assert (j = 0) as -> by lia.
    apply network_error. reflexivity. }
  split; [repeat split; try discriminate; exact H|].
  apply (fetch_url_first_success env "http://a.example/" USER_AGENT
           (Js.int 10000) (Js.int 2) 1 200 None "late but fine"
           ltac:(split; discriminate) H eq_refl eq_refl).
Defined.





(** X5.  With a negative [retries] the loop body never runs: [fetch_url]
    makes no attempt at all and returns the [Unknown error] body. *)
Theorem fetch_url_negative_retries (env : Environment)
    (url user_agent : string) (timeout retries : Js.number) :
  (retries < 0)%Q ->
  fetch_url env url user_agent timeout retries
  = (Some ("<e>Failed to fetch: Unknown error</e>", "text/plain"), []).
Proof.
  intros Hr. unfold fetch_url.
  apply loop_over.
  apply Z.lt_nge. intros Hc. apply (int_le_floor 0) in Hc.
  apply (Qlt_not_le _ _ Hr Hc).
Qed.

Lemma fetch_url_negative_retries_witness :
  (Js.int (-1) < 0)%Q
  /\ fetch_url (always (Responded 200 None "never asked for"))
       "http://a.example/" USER_AGENT (Js.int 10000) (Js.int (-1))
     = (Some ("<e>Failed to fetch: Unknown error</e>", "text/plain"), []).
Proof.
  split; [reflexivity|].
  apply (fetch_url_negative_retries
           (always (Responded 200 None "never asked for"))
           "http://a.example/" USER_AGENT (Js.int 10000) (Js.int (-1))
           eq_refl).
Defined.

(* ================================================================== *)
(** * The article simplifier *)
(* ================================================================== *)

Section SimplifierFacts.

Variable env : Environment.

Lemma simplification_error_tagged (t : Thrown) :
  tagged (simplification_error t).
Proof.
  destruct t as [e|]; cbn [simplification_error].
  - exists ("Page failed to be simplified from HTML: " ++ message e).
    now rewrite !append_assoc.
  - now exists "Page failed to be simplified from HTML".
Qed.

Lemma heading_not_tagged (rest : string) : ~ tagged ("# " ++ rest).
Proof. intros [inner H]. discriminate H. Qed.

Lemma extractContentFromHtml_nonempty (html : string) :
  extractContentFromHtml env html <> "".
Proof.
  unfold extractContentFromHtml.
  destruct (Readability_parse env html) as [[article|]|t].
  - destruct (negb (Js.truthy (articleContent article))); [discriminate|].
    destruct (turndown env (articleContent article)) as [markdown|t].
    + discriminate.
    + destruct (simplification_error_tagged t) as [inner ->]. discriminate.
  - discriminate.
  - destruct (simplification_error_tagged t) as [inner ->]. discriminate.
Qed.

(** X6.  [extractContentFromHtml] never returns the empty string.  Its
    result is wrapped in [<e>...</e>] exactly when the extraction failed
    (a library threw, no article was found, or the article has no
    content).  Otherwise it is [# <title>], then [ | <siteName>] when the
    site name is not empty, a blank line and the markdown, where the
    title is never empty: the article's title, else the document's
    title, else [Untitled Page]. *)
Theorem extractContentFromHtml_shape (html : string) :
  extractContentFromHtml env html <> ""
  /\ (tagged (extractContentFromHtml env html)
      <-> extraction_failed env html)
  /\ (~ extraction_failed env html ->
      exists article markdown heading,
        Readability_parse env html = Ok (Some article)
        /\ turndown env (articleContent article) = Ok markdown
        /\ heading <> ""
        /\ heading
           = (if Js.truthy (title article) then title article
              else if Js.truthy (document_title env html)
                   then document_title env html
                   else "Untitled Page")
        /\ extractContentFromHtml env html
           = "# " ++ heading
             ++ (if Js.truthy (siteName article)
                 then " | " ++ siteName article else "")
             ++ Js.LF ++ Js.LF ++ markdown).
Proof.
  unfold extractContentFromHtml, extraction_failed.
  destruct (Readability_parse env html) as [[article|]|t].
  - destruct (articleContent article) as [|c body] eqn:Hc;
      cbn [Js.truthy negb].
    + split; [discriminate|]. split.
      * split; [now left|]. intros _.
        now exists "Page failed to be simplified from HTML".
      * intros H. exfalso. apply H. now left.
    + destruct (turndown env (String c body)) as [markdown|t] eqn:Ht.
      * split; [discriminate|]. split.
        -- split.
           ++ intros H. now apply heading_not_tagged in H.
           ++ intros [H|[t H]]; discriminate.
        -- intros _. exists article, markdown. eexists.
           rewrite Hc. split; [reflexivity|]. split; [exact Ht|].
           split; [|split; [reflexivity|]].
           ++ destruct (title article); cbn; [|discriminate].
              destruct (document_title env html); cbn; discriminate.
           ++ unfold or_else.
              destruct (siteName article); cbn [Js.truthy];
                now rewrite !append_assoc.
      * pose proof (simplification_error_tagged t) as Htag.
        split; [|split].
        -- destruct Htag as [inner ->]. discriminate.
        -- split; [|now intros _].
           intros _. right. now exists t.
        -- intros H. exfalso. apply H. right. now exists t.
  - split; [discriminate|]. split.
    + split; [trivial|]. intros _.
      now exists "Page failed to be simplified from HTML".
    + intros H. now exfalso.
  - pose proof (simplification_error_tagged t) as Htag.
    split; [|split].
    + destruct Htag as [inner ->]. discriminate.
    + split; [trivial|now intros _].
    + intros H. now exfalso.
Qed.

End SimplifierFacts.

(* ================================================================== *)
(** * Further properties of the tool *)
(* ================================================================== *)

Section ToolExtras.

Variable env : Environment.
Variable url : string.
Variables timeout retries : Js.number.

Local Abbreviation fetched := (fetch_url env url USER_AGENT timeout retries).

(** What happens after the fetch: at most one call of the simplifier. *)
Lemma after_fetch_trace (maxLength startIndex : Js.number) (raw : bool)
    (pageRaw contentType : string) :
  trace (after_fetch env url maxLength startIndex raw
           (Some (pageRaw, contentType)))
  = if Js.truthy pageRaw && negb raw && negb (isBinary contentType)
       && isPageHtml pageRaw contentType
    then [Simplify pageRaw] else [].
Proof.
  cbn [after_fetch].
  destruct pageRaw as [|c rest]; [reflexivity|]. cbn [Js.truthy negb andb].
  destruct raw; cbn [negb andb].
  - rewrite !andb_false_r. reflexivity.
  - rewrite !andb_true_r.
    destruct (isBinary contentType); cbn [negb andb]; [reflexivity|].
    rewrite bind_value_trace.
    destruct (isPageHtml _ _); [rewrite bind_emit|]; reflexivity.
Qed.

(** X7.  The simplifier is called at most once per call, after all
    network activity, on the fetched body, and exactly when that body is
    not empty, raw mode is off, the content type is not binary and the
    payload counts as HTML; [call_fetch] itself causes no other effect
    than those of [fetch_url]. *)
Theorem simplifier_called_once (maxLength startIndex : Js.number) (raw : bool) :
  exists pageRaw contentType,
    value fetched = Some (pageRaw, contentType)
    /\ trace (call_fetch env url maxLength startIndex raw timeout retries)
       = (trace fetched
          ++ (if Js.truthy pageRaw && negb raw && negb (isBinary contentType)
                 && isPageHtml pageRaw contentType
              then [Simplify pageRaw] else []))%list.
Proof.
  destruct (fetch_url_returns env url USER_AGENT timeout retries)
    as [[pageRaw contentType] Hv].
  exists pageRaw, contentType. split; [exact Hv|].
  now rewrite call_fetch_trace, Hv, after_fetch_trace.
Qed.

(** X8.  In raw mode a non-empty body is paginated as it was fetched,
    whatever its content type (binary types included): the simplifier is
    not called and the size line gives the length of the body. *)
Theorem raw_mode_verbatim (maxLength startIndex : Js.number)
    (pageRaw contentType : string) :
  value fetched = Some (pageRaw, contentType) ->
  pageRaw <> "" ->
  let run := call_fetch env url maxLength startIndex true timeout retries in
  value run
  = text_result
      (envelope contentType (Js.length pageRaw) url
         (paginate pageRaw startIndex maxLength))
  /\ trace run = trace fetched.
Proof.
  intros Hv Hne run. unfold run. split.
  - rewrite call_fetch_value, Hv, after_fetch_envelope;
      [|exact Hne|apply andb_false_r].
    now rewrite andb_false_r.
  - rewrite call_fetch_trace, Hv, after_fetch_trace.
    cbn [negb]. rewrite andb_false_r. cbn [andb]. apply app_nil_r.
Qed.

(** X9.  [fetch_url] never returns [null], so [call_fetch] never answers
    [Failed to fetch url]. *)
Theorem never_failed_to_fetch_url (maxLength startIndex : Js.number) (raw : bool) :
  value fetched <> None
  /\ value (call_fetch env url maxLength startIndex raw timeout retries)
     <> text_result "Failed to fetch url".
Proof.
  destruct (fetch_url_returns env url USER_AGENT timeout retries)
    as [[pageRaw contentType] Hv].
  split; [now rewrite Hv|].
  rewrite call_fetch_value, Hv. cbn [after_fetch].
  destruct pageRaw as [|c rest]; [discriminate|]. cbn [Js.truthy negb].
  destruct (isBinary contentType && negb raw); [discriminate|].
  rewrite bind_value_trace. discriminate.
Qed.

(** X10.  The cursor selects a page and nothing else.  What is fetched
    and simplified does not depend on [start_index] and [max_length];
    and the answer is either a text that does not depend on them, or the
    envelope of one and the same non-empty content with one and the same
    size line for every cursor, of which only the paginated part
    varies. *)
Theorem cursor_only_selects_page (raw : bool) :
  (forall maxLength startIndex maxLength' startIndex',
      trace (call_fetch env url maxLength startIndex raw timeout retries)
      = trace (call_fetch env url maxLength' startIndex' raw timeout retries))
  /\ ((exists t,
         forall maxLength startIndex,
           value (call_fetch env url maxLength startIndex raw timeout retries)
           = text_result t)
      \/ (exists contentType content,
            content <> ""
            /\ forall maxLength startIndex,
                 value (call_fetch env url maxLength startIndex raw timeout
                          retries)
                 = text_result
                     (envelope contentType (Js.length content) url
                        (paginate content startIndex maxLength)))).
Proof.
  destruct (fetch_url_returns env url USER_AGENT timeout retries)
    as [[pageRaw contentType] Hv].
  split.
  - intros m s m' s'.
    now rewrite !call_fetch_trace, Hv, !after_fetch_trace.
  - destruct pageRaw as [|c rest].
    + left. exists "Failed to get page text". intros m s.
      now rewrite call_fetch_value, Hv.
    + destruct (isBinary contentType && negb raw) eqn:Hb.
      * left. exists (binary_refusal contentType). intros m s.
        rewrite call_fetch_value, Hv. cbn [after_fetch Js.truthy negb].
        now rewrite Hb.
      * right. exists contentType.
        exists (if isPageHtml (String c rest) contentType && negb raw
                then extractContentFromHtml env (String c rest)
                else String c rest).
        split.
        -- destruct (isPageHtml (String c rest) contentType && negb raw);
             [apply extractContentFromHtml_nonempty|discriminate].
        -- intros m s.
           now rewrite call_fetch_value, Hv, after_fetch_envelope.
Qed.

(** X11.  When no admitted attempt gets a 2xx response, the caller still
    gets an envelope: its content type is [text/plain] and what is
    paginated is the failure body wrapped in [<e>...</e>] (in raw mode
    always; otherwise unless that body itself counts as HTML).  A failed
    fetch is never reported as binary content or as an empty page. *)
Theorem failed_fetch_envelope (maxLength startIndex : Js.number) (raw : bool) :
  (forall k status header body,
      0 <= k /\ (Js.int k <= retries)%Q ->
      net env k = Responded status header body ->
      response_ok status = false) ->
  exists failure,
    tagged failure
    /\ value fetched = Some (failure, "text/plain")
    /\ value (call_fetch env url maxLength startIndex raw timeout retries)
       = text_result
           (let content :=
              if isPageHtml failure "text/plain" && negb raw
              then extractContentFromHtml env failure else failure in
            envelope "text/plain" (Js.length content) url
              (paginate content startIndex maxLength)).
Proof.
  intros Hno.
  destruct (loop_value_cases env url timeout retries
              (Z.to_nat (Qfloor retries + 1)) 0 None ltac:(lia) ltac:(lia))
    as (pageRaw & contentType & Hv & Hcases).
  fold fetched in Hv.
  destruct Hcases as [(k & status & header & Hk & Hn & Hok & _)|[e He]].
  - assert (0 <= k /\ (Js.int k <= retries)%Q) as Hk'
      by (split; [lia|apply int_le_floor; lia]).
    rewrite (Hno k status header pageRaw Hk' Hn) in Hok. discriminate.
  - pose proof (exhausted_tagged retries e) as [Ht Hc].
    rewrite <- He in Ht, Hc. cbn [fst snd] in Ht, Hc. subst contentType.
    exists pageRaw. split; [exact Ht|]. split; [exact Hv|].
    rewrite call_fetch_value, Hv, after_fetch_envelope; [reflexivity| |].
    + destruct Ht as [inner ->]. discriminate.
    + reflexivity.
Qed.

End ToolExtras.

Lemma raw_mode_verbatim_witness :
  let env := always (Responded 200 (Some "image/png") "PNG") in
  let url := "http://a.example/pixel.png" in
  (value (fetch_url env url USER_AGENT (Js.int 10000) (Js.int 2))
   = Some ("PNG", "image/png")
   /\ "PNG" <> "")
  /\ value (call_fetch env url (Js.int 5000) (Js.int 0) true (Js.int 10000)
              (Js.int 2))
     = text_result (envelope "image/png" 3 url "PNG").
Proof.
  split; [split; [reflexivity|discriminate]|].
  apply (raw_mode_verbatim
           (always (Responded 200 (Some "image/png") "PNG"))
           "http://a.example/pixel.png" (Js.int 10000) (Js.int 2)
           (Js.int 5000) (Js.int 0) "PNG" "image/png"
           eq_refl ltac:(discriminate)).
Defined.

Lemma failed_fetch_envelope_witness :
  let env := always (Responded 404 None "Not Found") in
  (forall k status header body,
      0 <= k /\ (Js.int k <= Js.int 2)%Q ->
      net env k = Responded status header body ->
      response_ok status = false)
  /\ exists failure,
       value (fetch_url env "http://a.example/" USER_AGENT (Js.int 10000)
                (Js.int 2))
       = Some (failure, "text/plain")
       /\ value (call_fetch env "http://a.example/" (Js.int 5000) (Js.int 0)
                   true (Js.int 10000) (Js.int 2))
          = text_result
              (envelope "text/plain" (Js.length failure) "http://a.example/"
                 (paginate failure (Js.int 0) (Js.int 5000))).
Proof.
  intros env.
  assert (H : forall k status header body,
             0 <= k /\ (Js.int k <= Js.int 2)%Q ->
             net env k = Responded status header body ->
             response_ok status = false).
  { intros k status header body _ E. injection E as <- _ _. reflexivity. }
  split; [exact H|].
  destruct (failed_fetch_envelope env "http://a.example/" (Js.int 10000)
              (Js.int 2) (Js.int 5000) (Js.int 0) true H)
    as (failure & _ & Hv & Hr).
  exists failure. split; [exact Hv|].
  rewrite Hr. cbn [negb]. now rewrite andb_false_r.
Defined.

(* ================================================================== *)
(** * Further properties of the paginator *)
(* ================================================================== *)

(** The facts of this section are about integer cursors: [startIndex]
    and [maxLength] are integers, as a reader that starts at 0 with an
    integer width passes them. *)
Section PaginatorExtras.

Variable text : string.
Variable maxLength : Z.
Hypothesis positive_width : 0 < maxLength.

Lemma page_inside (startIndex : Z) (slice : string) (notice : Notice) :
  paginate_view text (Js.int startIndex) (Js.int maxLength)
  = Page slice notice ->
  startIndex < Js.length text.
Proof.
  unfold paginate_view. rewrite geb_int, Z.geb_leb.
  destruct (Z.leb_spec (Js.length text) startIndex); [discriminate|lia].
Qed.

Lemma page_length (startIndex : Z) (slice : string) (notice : Notice) :
  0 <= startIndex ->
  paginate_view text (Js.int startIndex) (Js.int maxLength)
  = Page slice notice ->
  slice = code_units text startIndex
            (Z.min (startIndex + maxLength) (Js.length text))
  /\ Js.length slice = Z.min maxLength (Js.length text - startIndex).
Proof.
  intros H0 V. pose proof (page_inside _ _ _ V) as Hin.
  rewrite paginate_view_page in V by lia.
  injection V as <- _.
  rewrite length_substring_in_range by lia.
  now rewrite substring_in_range by lia.
Qed.

(** The cursor that a call inside the text reports. *)
Lemma next_start_index_value (startIndex : Z) :
  0 <= startIndex < Js.length text ->
  next_start_index
    (paginate_view text (Js.int startIndex) (Js.int maxLength))
  = if startIndex + maxLength <? Js.length text
    then Some (Js.int (startIndex + maxLength)) else None.
Proof.
  intros Hs. rewrite paginate_view_page by assumption.
  pose proof (length_substring_in_range text startIndex maxLength Hs
                positive_width) as Hlen.
  set (slice := Js.substring text (Js.int startIndex)
                  (Js.int (startIndex + maxLength))) in *.
  rewrite !Z.gtb_ltb.
  destruct (Z.ltb_spec (startIndex + maxLength) (Js.length text)) as [Hm|Hm].
  - assert (Js.length slice = maxLength) as -> by lia.
    rewrite Z.eqb_refl.
    destruct (Z.ltb_spec 0 (Js.length text - (startIndex + maxLength)));
      [reflexivity|lia].
  - destruct (Z.eqb_spec (Js.length slice) maxLength) as [He|He];
      destruct (Z.ltb_spec 0 (Js.length text
                                - (startIndex + Js.length slice)));
      cbn [andb]; try lia; now destruct (0 <? startIndex).
Qed.

(** X12.  For a valid integer cursor ([start_index >= 0],
    [max_length > 0]) a page holds between 1 and [max_length] code
    units, lies inside the text, and is the text between [startIndex]
    and the end of the page. *)
Theorem page_within_bounds (startIndex : Z) (slice : string)
    (notice : Notice) :
  0 <= startIndex ->
  paginate_view text (Js.int startIndex) (Js.int maxLength)
  = Page slice notice ->
  0 < Js.length slice <= maxLength
  /\ startIndex + Js.length slice <= Js.length text
  /\ slice = code_units text startIndex (startIndex + Js.length slice).
Proof.
  intros H0 V. pose proof (page_inside _ _ _ V) as Hin.
  destruct (page_length _ _ _ H0 V) as [Hs Hl].
  repeat split; try lia.
  rewrite Hs at 1. f_equal. lia.
Qed.

(** X13.  For a valid integer cursor inside the text, a next
    [start_index] is reported exactly when the text goes on after
    [startIndex + maxLength], and it is that position: the reported
    cursor is always further on and still inside the text.  When none is
    reported the page reaches the end of the text. *)
Theorem cursor_reported_iff_more (startIndex : Z) :
  0 <= startIndex < Js.length text ->
  (forall nextStart,
      next_start_index
        (paginate_view text (Js.int startIndex) (Js.int maxLength))
      = Some nextStart
      <-> startIndex + maxLength < Js.length text
          /\ nextStart = Js.int (startIndex + maxLength))
  /\ (next_start_index
        (paginate_view text (Js.int startIndex) (Js.int maxLength)) = None
      <-> Js.length text <= startIndex + maxLength).
Proof.
  intros Hs. rewrite next_start_index_value by assumption.
  destruct (Z.ltb_spec (startIndex + maxLength) (Js.length text)) as [Hm|Hm].
  - split; [intros nextStart|]; split; intros H;
      try discriminate; try lia.
    + injection H as <-. split; [exact Hm|reflexivity].
    + destruct H as [_ ->]. reflexivity.
  - split; [intros nextStart|]; split; intros H;
      try discriminate; try lia; try reflexivity.
Qed.

(** X14.  For a valid integer cursor the sentinel is the answer only at
    or past the end of the text: inside the text a page is always
    returned. *)
Theorem sentinel_iff_past_end (startIndex : Z) :
  0 <= startIndex ->
  (paginate_view text (Js.int startIndex) (Js.int maxLength) = NoMoreContent
   <-> Js.length text <= startIndex).
Proof.
  intros H0. split.
  - intros V. destruct (Z.le_gt_cases (Js.length text) startIndex) as [H|H];
      [exact H|].
    rewrite paginate_view_page in V by lia. discriminate.
  - intros H. apply paginate_view_past_end.
    unfold Js.int. now rewrite <- Zle_Qle.
Qed.

(** X15.  A text that fits into one page is returned as it is, without a
    notice. *)
Theorem paginate_fits :
  0 < Js.length text <= maxLength ->
  paginate_view text (Js.int 0) (Js.int maxLength) = Page text NoNotice
  /\ paginate text (Js.int 0) (Js.int maxLength) = text.
Proof.
  intros Hfit.
  assert (Js.substring text (Js.int 0) (Js.int (0 + maxLength)) = text)
    as Hsub.
  { rewrite substring_in_range by lia. unfold code_units.
    change (Z.to_nat 0) with O. cbn [Js.drop].
    apply take_all. unfold Js.length in *. lia. }
  assert (paginate_view text (Js.int 0) (Js.int maxLength)
          = Page text NoNotice) as V.
  { rewrite paginate_view_page by lia. rewrite Hsub.
    replace (Js.length text - (0 + Js.length text) >? 0) with false
      by (symmetry; rewrite Z.gtb_ltb; apply Z.ltb_ge; lia).
    now rewrite andb_false_r. }
  split; [exact V|].
  rewrite paginate_render, V. apply append_empty.
Qed.

(** The reader's slices are pages, and there are as many as the width
    goes into what is left of the text, rounded up. *)
Lemma read_all_count (fuel : nat) :
  forall (startIndex : Z) (slices : list string) (stop : Js.number),
    0 <= startIndex ->
    read_all fuel text (Js.int startIndex) (Js.int maxLength)
    = Some (slices, stop) ->
    Z.of_nat (List.length slices)
    = (Z.max 0 (Js.length text - startIndex) + maxLength - 1) / maxLength
    /\ Forall (fun slice => 0 < Js.length slice <= maxLength) slices.
Proof.
  induction fuel as [|fuel IH]; intros startIndex slices stop H0 R;
    [discriminate|].
  cbn [read_all] in R.
  destruct (paginate_view text (Js.int startIndex) (Js.int maxLength))
    as [|slice notice] eqn:V.
  - injection R as <- <-.
    assert (Js.length text <= startIndex) as Hend.
    { destruct (Z.le_gt_cases (Js.length text) startIndex) as [H|H];
        [exact H|].
      rewrite paginate_view_page in V by lia. discriminate. }
    split; [|constructor].
    rewrite Z.max_l by lia. cbn [List.length].
    symmetry. apply Z.div_small. lia.
  - pose proof (page_inside _ _ _ V) as Hs.
    destruct (page_length _ _ _ H0 V) as [_ Hl].
    pose proof (next_start_index_value startIndex ltac:(lia)) as Hn.
    rewrite V in Hn. rewrite Hn in R.
    destruct (Z.ltb_spec (startIndex + maxLength) (Js.length text)) as [Hm|Hm].
    + destruct (read_all fuel text (Js.int (startIndex + maxLength))
                  (Js.int maxLength))
        as [[rest stop']|] eqn:R'; [|discriminate].
      injection R as <- <-.
      assert (0 <= startIndex + maxLength) as H0' by lia.
      destruct (IH _ _ _ H0' R') as [Hcount Hall].
      split; [|constructor; [lia|exact Hall]].
      cbn [List.length]. rewrite Nat2Z.inj_succ, Hcount.
      rewrite !Z.max_r by lia.
      replace (Js.length text - startIndex + maxLength - 1)
        with (Js.length text - (startIndex + maxLength) + maxLength - 1
              + 1 * maxLength) by lia.
      rewrite Z.div_add by lia. lia.
    + injection R as <- <-.
      split; [|constructor; [lia|constructor]].
      cbn [List.length]. rewrite Z.max_r by lia.
      apply Z.div_unique with (r := Js.length text - startIndex - 1).
      * left. lia.
      * lia.
Qed.

(** X16.  With an integer width, reading a text of [total] code units
    from the start takes [ceil (total / maxLength)] calls that return a
    page; every page holds between 1 and [maxLength] code units. *)
Theorem read_all_page_count :
  exists slices,
    read_all (S (String.length text)) text (Js.int 0) (Js.int maxLength)
    = Some (slices, Js.int (Js.length text))
    /\ Z.of_nat (List.length slices)
       = (Js.length text + maxLength - 1) / maxLength
    /\ Forall (fun slice => 0 < Js.length slice <= maxLength) slices.
Proof.
  destruct (read_all_rest text maxLength positive_width
              (S (String.length text)) 0) as (slices & R & _);
    [pose proof (length_nonneg text); lia|unfold Js.length; lia|].
  exists slices. split; [exact R|].
  destruct (read_all_count _ _ _ _ (Z.le_refl 0) R) as [Hc Hall].
  split; [|exact Hall].
  rewrite Hc, Z.sub_0_r, Z.max_r by apply length_nonneg. reflexivity.
Qed.

End PaginatorExtras.

Lemma page_within_bounds_witness :
  (0 < 4 /\ 0 <= 8
   /\ paginate_view "0123456789" (Js.int 8) (Js.int 4)
      = Page "89" (Continuation (Js.int 8) (Js.Finite 100)))
  /\ 0 < Js.length "89" <= 4.
Proof.
  split; [repeat split; discriminate|].
  apply (page_within_bounds "0123456789" 4 eq_refl 8 "89"
           (Continuation (Js.int 8) (Js.Finite 100)) ltac:(discriminate)
           eq_refl).
Defined.

Lemma cursor_reported_iff_more_witness :
  (0 < 4 /\ 0 <= 4 < Js.length "0123456789")
  /\ next_start_index (paginate_view "0123456789" (Js.int 4) (Js.int 4))
     = Some (Js.int 8).
Proof.
  split; [repeat split; discriminate|].
  apply (proj1 (cursor_reported_iff_more "0123456789" 4 eq_refl 4
                  ltac:(split; [discriminate|reflexivity]))).
  split; reflexivity.
Defined.

Lemma sentinel_iff_past_end_witness :
  (0 < 4 /\ 0 <= 10)
  /\ paginate_view "0123456789" (Js.int 10) (Js.int 4) = NoMoreContent.
Proof.
  split; [split; [reflexivity|discriminate]|].
  apply (sentinel_iff_past_end "0123456789" 4 eq_refl 10
           ltac:(discriminate)).
  discriminate.
Defined.

Lemma paginate_fits_witness :
  (0 < 5000 /\ 0 < Js.length "short text" <= 5000)
  /\ paginate "short text" (Js.int 0) (Js.int 5000) = "short text".
Proof.
  split; [repeat split; discriminate|].
  apply (paginate_fits "short text" 5000 eq_refl).
  split; [reflexivity|discriminate].
Defined.

Lemma read_all_page_count_witness :
  0 < 4
  /\ exists slices,
       read_all 11 "0123456789" (Js.int 0) (Js.int 4)
       = Some (slices, Js.int 10)
       /\ Z.of_nat (List.length slices) = 3.
Proof.
  split; [reflexivity|].
  destruct (read_all_page_count "0123456789" 4 eq_refl)
    as (slices & R & C & _).
  exists slices. split; [exact R|exact C].
Defined.

(** With a fraction for a width the three facts above fail: at
    [maxLength = 2.5] no cursor is reported although the text goes on,
    and the reader makes one call, not four; at [maxLength = 0.5] the
    sentinel is the answer inside the text. *)
Example fraction_width :
  next_start_index (paginate_view "0123456789" (Js.int 0) two_and_a_half)
  = None
  /\ read_all 11 "0123456789" (Js.int 0) two_and_a_half
     = Some (["01"], Js.int 2)
  /\ paginate_view "0123456789" (Js.int 0) one_half = NoMoreContent.
Proof. repeat split; vm_compute; reflexivity. Qed.

(* ================================================================== *)
(** * The tool dispatcher *)
(* ================================================================== *)

Section SchemaFacts.

Lemma number_accepts (checks : list (Js.number -> option Zod.IssueCode))
    (key : string) (v : JsonValue) (n : Js.number) :
  Zod.number checks key v = inr n
  <-> v = JsonNumber n /\ Forall (fun check => check n = None) checks.
Proof.
  unfold Zod.number. destruct v as [|b|m|s|]; try (split; [discriminate|]);
    try (intros [H _]; discriminate).
  assert (flat_map (fun check => match check m with
                                 | Some c => [Zod.mkIssue key c]
                                 | None => []
                                 end) checks = []
          <-> Forall (fun check => check m = None) checks) as Hchecks.
  { induction checks as [|check checks IH]; cbn [flat_map].
    - split; [constructor|reflexivity].
    - destruct (check m) as [c|] eqn:Hc; cbn [app].
      + split; [discriminate|]. intros H. inversion H. congruence.
      + rewrite IH. split; [now constructor|]. intros H. now inversion H. }
  destruct (flat_map _ checks) as [|i issues].
  - split.
    + intros H. injection H as <-. split; [reflexivity|now apply Hchecks].
    + intros [H _]. now injection H as <-.
  - split; [discriminate|]. intros [H F]. injection H as <-.
    apply Hchecks in F. discriminate.
Qed.

Lemma number_rejects_nonempty
    (checks : list (Js.number -> option Zod.IssueCode))
    (key : string) (v : JsonValue) (issues : list Zod.Issue) :
  Zod.number checks key v = inl issues -> issues <> [].
Proof.
  unfold Zod.number. destruct v; try (intros H; injection H as <-; discriminate).
  destruct (flat_map _ checks); [discriminate|].
  intros H. injection H as <-. discriminate.
Qed.

Lemma default_number_accepts (d : Js.number)
    (checks : list (Js.number -> option Zod.IssueCode)) (key : string)
    (v : JsonValue) (n : Js.number) :
  Forall (fun check => check d = None) checks ->
  (Zod.default (JsonNumber d) (Zod.number checks) key v = inr n
   <-> (v = Absent /\ n = d)
       \/ (v = JsonNumber n /\ Forall (fun check => check n = None) checks)).
Proof.
  intros Hd. unfold Zod.default.
  destruct v as [|b|m|s|]; rewrite number_accepts; split;
    try (intros [H _]; discriminate);
    try (intros [[H _]|[H _]]; discriminate).
  - intros [H _]. left. split; congruence.
  - intros [[_ ->]|[H _]]; [now split|discriminate].
  - intros [H F]. right. now split.
  - intros [[H _]|H]; [discriminate|exact H].
Qed.

Lemma Forall_one {A : Type} (P : A -> Prop) (a : A) :
  Forall P [a] <-> P a.
Proof.
  split; [intros H; now inversion H|intros H; now repeat constructor].
Qed.

Lemma Forall_two {A : Type} (P : A -> Prop) (a b : A) :
  Forall P [a; b] <-> P a /\ P b.
Proof.
  split.
  - intros H. inversion H as [|? ? Ha H']. inversion H'. now split.
  - intros [Ha Hb]. now repeat constructor.
Qed.

Lemma gt_passes (bound n : Js.number) :
  Zod.gt bound n = None <-> (bound < n)%Q.
Proof.
  unfold Zod.gt. rewrite <- gtb_iff.
  destruct (Js.gtb n bound); split; intros; congruence.
Qed.

Lemma gte_passes (bound n : Js.number) :
  Zod.gte bound n = None <-> (bound <= n)%Q.
Proof.
  unfold Zod.gte. rewrite <- geb_iff.
  destruct (Js.geb n bound); split; intros; congruence.
Qed.

Lemma lt_passes (bound n : Js.number) :
  Zod.lt bound n = None <-> (n < bound)%Q.
Proof.
  unfold Zod.lt. rewrite <- ltb_iff.
  destruct (Js.ltb n bound); split; intros; congruence.
Qed.

Lemma lte_passes (bound n : Js.number) :
  Zod.lte bound n = None <-> (n <= bound)%Q.
Proof.
  unfold Zod.lte. rewrite <- leb_iff.
  destruct (Js.leb n bound); split; intros; congruence.
Qed.

Variable is_url : string -> bool.

Lemma string_url_accepts (key : string) (v : JsonValue) (u : string) :
  Zod.string_url is_url key v = inr u
  <-> v = JsonString u /\ is_url u = true.
Proof.
  unfold Zod.string_url. destruct v as [| | |x|];
    try (split; [discriminate|intros [H _]; discriminate]).
  destruct (is_url x) eqn:Hx; split.
  - intros H. injection H as <-. now split.
  - intros [H _]. now injection H as <-.
  - discriminate.
  - intros [H Hv]. injection H as <-. congruence.
Qed.

Lemma default_boolean_accepts (key : string) (v : JsonValue) (r : bool) :
  Zod.default (JsonBoolean false) Zod.boolean key v = inr r
  <-> (v = Absent /\ r = false) \/ v = JsonBoolean r.
Proof.
  unfold Zod.default, Zod.boolean. destruct v as [|b| | |]; split;
    try discriminate;
    try (intros [[H _]|H]; discriminate).
  - intros H. left. split; congruence.
  - intros [[_ ->]|H]; [reflexivity|discriminate].
  - intros H. right. congruence.
  - intros [[H _]|H]; [discriminate|congruence].
Qed.

(** The arguments that come out of the schema are within its bounds. *)
Lemma FetchSchema_parse_bounds (args : string -> JsonValue) (a : FetchArgs) :
  FetchSchema_parse is_url args = inr a ->
  is_url (arg_url a) = true
  /\ (Js.int 0 < arg_max_length a < Js.int 1000000)%Q
  /\ (Js.int 0 <= arg_start_index a)%Q
  /\ (Js.int 0 < arg_timeout a <= Js.int 60000)%Q
  /\ (Js.int 0 <= arg_retries a <= Js.int 5)%Q.
Proof.
  unfold FetchSchema_parse.
  destruct (Zod.string_url is_url "url" (args "url")) as [|u] eqn:Eu;
    [discriminate|].
  destruct (Zod.default (JsonNumber (Js.int 5000)) _ "max_length" _) as [|m] eqn:Em;
    [discriminate|].
  destruct (Zod.default (JsonNumber (Js.int 0)) _ "start_index" _) as [|s] eqn:Es;
    [discriminate|].
  destruct (Zod.default (JsonBoolean false) _ "raw" _) as [|r] eqn:Er;
    [discriminate|].
  destruct (Zod.default (JsonNumber (Js.int 10000)) _ "timeout" _) as [|t] eqn:Et;
    [discriminate|].
  destruct (Zod.default (JsonNumber (Js.int 2)) _ "retries" _) as [|n] eqn:En;
    [discriminate|].
  intros H. injection H as <-.
  cbn [arg_url arg_max_length arg_start_index arg_timeout arg_retries].
  apply string_url_accepts in Eu.
  apply default_number_accepts in Em; [|repeat constructor].
  apply default_number_accepts in Es; [|repeat constructor].
  apply default_number_accepts in Et; [|repeat constructor].
  apply default_number_accepts in En; [|repeat constructor].
  rewrite Forall_two, gt_passes, lt_passes in Em.
  rewrite Forall_one, gte_passes in Es.
  rewrite Forall_two, gt_passes, lte_passes in Et.
  rewrite Forall_two, gte_passes, lte_passes in En.
  split; [apply Eu|].
  destruct Em as [[_ ->]|[_ ?]]; destruct Es as [[_ ->]|[_ ?]];
    destruct Et as [[_ ->]|[_ ?]]; destruct En as [[_ ->]|[_ ?]];
    repeat split; solve [tauto|reflexivity|discriminate].
Qed.

(** X17.  [FetchSchema] accepts an arguments object exactly when [url]
    is a string that parses as a URL, [max_length] is absent (then 5000)
    or a number with [0 < n < 1000000], [start_index] is absent (then 0)
    or a number [>= 0], [raw] is absent (then [false]) or a boolean,
    [timeout] is absent (then 10000) or a number with
    [0 < n <= 60000], and [retries] is absent (then 2) or a number with
    [0 <= n <= 5]; other keys play no part.  A number need not be an
    integer: the parsed value is the number as it was passed. *)
Theorem FetchSchema_accepts (args : string -> JsonValue) (a : FetchArgs) :
  FetchSchema_parse is_url args = inr a
  <-> (args "url" = JsonString (arg_url a) /\ is_url (arg_url a) = true)
      /\ (args "max_length" = Absent /\ arg_max_length a = Js.int 5000
          \/ args "max_length" = JsonNumber (arg_max_length a)
             /\ (Js.int 0 < arg_max_length a < Js.int 1000000)%Q)
      /\ (args "start_index" = Absent /\ arg_start_index a = Js.int 0
          \/ args "start_index" = JsonNumber (arg_start_index a)
             /\ (Js.int 0 <= arg_start_index a)%Q)
      /\ (args "raw" = Absent /\ arg_raw a = false
          \/ args "raw" = JsonBoolean (arg_raw a))
      /\ (args "timeout" = Absent /\ arg_timeout a = Js.int 10000
          \/ args "timeout" = JsonNumber (arg_timeout a)
             /\ (Js.int 0 < arg_timeout a <= Js.int 60000)%Q)
      /\ (args "retries" = Absent /\ arg_retries a = Js.int 2
          \/ args "retries" = JsonNumber (arg_retries a)
             /\ (Js.int 0 <= arg_retries a <= Js.int 5)%Q).
Proof.
  destruct a as [u m s r t n]. cbn [arg_url arg_max_length arg_start_index
                                     arg_raw arg_timeout arg_retries].
  pose proof (string_url_accepts "url" (args "url") u) as Hu.
  pose proof (default_number_accepts (Js.int 5000)
                [Zod.gt (Js.int 0); Zod.lt (Js.int 1000000)]
                "max_length" (args "max_length") m
                ltac:(repeat constructor)) as Hm.
  pose proof (default_number_accepts (Js.int 0) [Zod.gte (Js.int 0)]
                "start_index" (args "start_index") s
                ltac:(repeat constructor)) as Hs.
  pose proof (default_boolean_accepts "raw" (args "raw") r) as Hr.
  pose proof (default_number_accepts (Js.int 10000)
                [Zod.gt (Js.int 0); Zod.lte (Js.int 60000)]
                "timeout" (args "timeout") t
                ltac:(repeat constructor)) as Ht.
  pose proof (default_number_accepts (Js.int 2)
                [Zod.gte (Js.int 0); Zod.lte (Js.int 5)]
                "retries" (args "retries") n
                ltac:(repeat constructor)) as Hn.
  rewrite Forall_two, gt_passes, lt_passes in Hm.
  rewrite Forall_one, gte_passes in Hs.
  rewrite Forall_two, gt_passes, lte_passes in Ht.
  rewrite Forall_two, gte_passes, lte_passes in Hn.
  rewrite <- Hu, <- Hm, <- Hs, <- Hr, <- Ht, <- Hn.
  unfold FetchSchema_parse.
  destruct (Zod.string_url is_url "url" (args "url")) as [|u'];
    [split; [discriminate|intros (H & _); discriminate]|].
  destruct (Zod.default (JsonNumber (Js.int 5000)) _ "max_length" _) as [|m'];
    [split; [discriminate|intros (_ & H & _); discriminate]|].
  destruct (Zod.default (JsonNumber (Js.int 0)) _ "start_index" _) as [|s'];
    [split; [discriminate|intros (_ & _ & H & _); discriminate]|].
  destruct (Zod.default (JsonBoolean false) _ "raw" _) as [|r'];
    [split; [discriminate|intros (_ & _ & _ & H & _); discriminate]|].
  destruct (Zod.default (JsonNumber (Js.int 10000)) _ "timeout" _) as [|t'];
    [split; [discriminate|intros (_ & _ & _ & _ & H & _); discriminate]|].
  destruct (Zod.default (JsonNumber (Js.int 2)) _ "retries" _) as [|n'];
    [split; [discriminate|intros (_ & _ & _ & _ & _ & H); discriminate]|].
  split.
  - intros H. injection H as <- <- <- <- <- <-. repeat split.
  - intros (H1 & H2 & H3 & H4 & H5 & H6). congruence.
Qed.

(** Fractions pass the schema: [max_length = 2.5] and [retries = 1.5]
    are handed to [call_fetch] as they are. *)
Example FetchSchema_accepts_fractions :
  FetchSchema_parse is_url
    (object_of [("url", JsonString "http://a.example/");
                ("max_length", JsonNumber two_and_a_half);
                ("retries", JsonNumber one_and_a_half)])
  = if is_url "http://a.example/"
    then inr (mkFetchArgs "http://a.example/" two_and_a_half (Js.int 0) false
                (Js.int 10000) one_and_a_half)
    else inl [Zod.mkIssue "url" Zod.invalid_string].
Proof.
  unfold FetchSchema_parse. cbn [object_of String.eqb Ascii.eqb Bool.eqb].
  unfold Zod.string_url. destruct (is_url "http://a.example/"); reflexivity.
Qed.

End SchemaFacts.

Section HandlerFacts.

Variable env : Environment.
Variable is_url : string -> bool.
Variable JSON_stringify : list Zod.Issue -> string.

Local Abbreviation handle := (handle_call_tool env is_url JSON_stringify).

Lemma default_rejects_nonempty {A : Type} (d : JsonValue)
    (inner : string -> JsonValue -> list Zod.Issue + A) (key : string)
    (v : JsonValue) (issues : list Zod.Issue) :
  (forall w l, inner key w = inl l -> l <> []) ->
  Zod.default d inner key v = inl issues -> issues <> [].
Proof. intros H. unfold Zod.default. apply H. Qed.

Lemma boolean_rejects_nonempty (key : string) (v : JsonValue)
    (issues : list Zod.Issue) :
  Zod.boolean key v = inl issues -> issues <> [].
Proof.
  unfold Zod.boolean. destruct v; intros H; try discriminate;
    injection H as <-; discriminate.
Qed.

Lemma string_url_rejects_nonempty (key : string) (v : JsonValue)
    (issues : list Zod.Issue) :
  Zod.string_url is_url key v = inl issues -> issues <> [].
Proof.
  unfold Zod.string_url. destruct v as [| | |s|];
    try (intros H; injection H as <-; discriminate).
  destruct (is_url s); [discriminate|].
  intros H; injection H as <-; discriminate.
Qed.

(** A rejection always says why: the list of issues is not empty. *)
Lemma FetchSchema_rejects_nonempty (args : string -> JsonValue)
    (issues : list Zod.Issue) :
  FetchSchema_parse is_url args = inl issues -> issues <> [].
Proof.
  unfold FetchSchema_parse.
  destruct (Zod.string_url is_url "url" (args "url")) as [lu|u] eqn:Eu;
  destruct (Zod.default (JsonNumber (Js.int 5000)) _ "max_length" _) as [lm|m] eqn:Em;
  destruct (Zod.default (JsonNumber (Js.int 0)) _ "start_index" _) as [ls|s] eqn:Es;
  destruct (Zod.default (JsonBoolean false) _ "raw" _) as [lr|r] eqn:Er;
  destruct (Zod.default (JsonNumber (Js.int 10000)) _ "timeout" _) as [lt|t] eqn:Et;
  destruct (Zod.default (JsonNumber (Js.int 2)) _ "retries" _) as [ln|n] eqn:En;
  try discriminate;
  intros H; injection H as <-; cbn [Zod.issues_of]; intros Hnil;
  repeat match goal with
         | H : (_ ++ _)%list = [] |- _ =>
             apply app_eq_nil in H; destruct H
         end;
  subst;
  try (now apply string_url_rejects_nonempty in Eu);
  try (apply default_rejects_nonempty in Em;
       [now apply Em|intros w l; apply number_rejects_nonempty]);
  try (apply default_rejects_nonempty in Es;
       [now apply Es|intros w l; apply number_rejects_nonempty]);
  try (apply default_rejects_nonempty in Er;
       [now apply Er|intros w l; apply boolean_rejects_nonempty]);
  try (apply default_rejects_nonempty in Et;
       [now apply Et|intros w l; apply number_rejects_nonempty]);
  try (apply default_rejects_nonempty in En;
       [now apply En|intros w l; apply number_rejects_nonempty]).
Qed.

Lemma handle_accepted (name : string) (args : string -> JsonValue)
    (a : FetchArgs) :
  name = "fetch" ->
  FetchSchema_parse is_url args = inr a ->
  let run :=
    call_fetch env (arg_url a) (arg_max_length a) (arg_start_index a)
      (arg_raw a) (arg_timeout a) (arg_retries a) in
  handle (mkToolCall name (Some args)) = (Returns (value run), trace run).
Proof.
  intros -> Hp run. unfold handle_call_tool. cbn [arguments tool String.eqb].
  change (String.eqb "fetch" "fetch") with true. cbn iota.
  rewrite Hp, bind_value_trace. cbn [ret value trace fst snd].
  now rewrite app_nil_r.
Qed.

(** X18.  The dispatcher throws before any network activity: when the
    call ends in an exception nothing was fetched or simplified, and the
    exception is an [Error] saying [Arguments are required] (no arguments
    object, whatever the tool name), [Unknown tool: <name>] (arguments
    given, name other than [fetch]), or [Invalid input: ] followed by the
    rendering of a non-empty list of schema issues. *)
Theorem handler_throws_before_network (request : ToolCall) (e : JsError) :
  value (handle request) = Throws e ->
  trace (handle request) = []
  /\ name e = "Error"
  /\ ((arguments request = None /\ message e = "Arguments are required")
      \/ (arguments request <> None /\ tool request <> "fetch"
          /\ message e = "Unknown tool: " ++ tool request)
      \/ (exists args issues,
            arguments request = Some args /\ tool request = "fetch"
            /\ FetchSchema_parse is_url args = inl issues
            /\ issues <> []
            /\ message e = "Invalid input: " ++ JSON_stringify issues)).
Proof.
  destruct request as [name [args|]]; unfold handle_call_tool;
    cbn [arguments tool].
  - destruct (String.eqb_spec name "fetch") as [->|Hne].
    + destruct (FetchSchema_parse is_url args) as [issues|a] eqn:Hp.
      * intros H. injection H as <-. split; [reflexivity|].
        split; [reflexivity|]. right. right. exists args, issues.
        split; [reflexivity|]. split; [reflexivity|].
        split; [exact Hp|]. split; [|reflexivity].
        now apply FetchSchema_rejects_nonempty in Hp.
      * rewrite bind_value_trace. discriminate.
    + intros H. injection H as <-. split; [reflexivity|].
      split; [reflexivity|]. right. left.
      repeat split; [discriminate|exact Hne].
  - intros H. injection H as <-. split; [reflexivity|].
    split; [reflexivity|]. left. now split.
Qed.

(** X19.  The dispatcher calls [call_fetch] only with validated
    arguments: when the call returns a result, the tool is [fetch], the
    arguments passed the schema, so that [0 < max_length < 1000000],
    [start_index >= 0], [0 < timeout <= 60000], [0 <= retries <= 5] and
    the url parses, and the result and the effects are those of
    [call_fetch] on these arguments. *)
Theorem handler_calls_validated (request : ToolCall) (result : ToolResult) :
  value (handle request) = Returns result ->
  exists args a,
    arguments request = Some args
    /\ tool request = "fetch"
    /\ FetchSchema_parse is_url args = inr a
    /\ is_url (arg_url a) = true
    /\ (Js.int 0 < arg_max_length a < Js.int 1000000)%Q
    /\ (Js.int 0 <= arg_start_index a)%Q
    /\ (Js.int 0 < arg_timeout a <= Js.int 60000)%Q
    /\ (Js.int 0 <= arg_retries a <= Js.int 5)%Q
    /\ handle request
       = (Returns
            (value (call_fetch env (arg_url a) (arg_max_length a)
                      (arg_start_index a) (arg_raw a) (arg_timeout a)
                      (arg_retries a))),
          trace (call_fetch env (arg_url a) (arg_max_length a)
                   (arg_start_index a) (arg_raw a) (arg_timeout a)
                   (arg_retries a))).
Proof.
  destruct request as [name [args|]]; [|discriminate].
  intros H.
  assert (name = "fetch") as Hname.
  { revert H. unfold handle_call_tool. cbn [arguments tool].
    now destruct (String.eqb_spec name "fetch"). }
  destruct (FetchSchema_parse is_url args) as [issues|a] eqn:Hp.
  - revert H. unfold handle_call_tool. cbn [arguments tool].
    rewrite Hname, Hp. discriminate.
  - exists args, a. cbn [arguments tool].
    pose proof (FetchSchema_parse_bounds is_url args a Hp)
      as (Hu & Hm & Hs & Ht & Hn).
    repeat split; try assumption; try reflexivity; try tauto.
    now apply handle_accepted.
Qed.

End HandlerFacts.

Section EffectBounds.

Lemma count_requests_app (t1 t2 : list Event) :
  count_requests (t1 ++ t2) = count_requests t1 + count_requests t2.
Proof.
  unfold count_requests. rewrite filter_app, length_app. lia.
Qed.

Lemma total_pause_app (t1 t2 : list Event) :
  total_pause (t1 ++ t2) = total_pause t1 + total_pause t2.
Proof.
  induction t1 as [|e t1 IH]; [reflexivity|].
  destruct e; cbn [app total_pause]; rewrite IH; lia.
Qed.

Variable env : Environment.

(** What one call of [call_fetch] can cause, for any number
    [retries >= 0]. *)
Lemma call_fetch_effect_bounds (url : string)
    (maxLength startIndex : Js.number) (raw : bool)
    (timeout retries : Js.number) :
  (0 <= retries)%Q ->
  let t := trace (call_fetch env url maxLength startIndex raw timeout
                    retries) in
  count_requests t <= Qfloor retries + 1
  /\ total_pause t <= 1000 * Qceiling retries
  /\ (List.length (filter is_simplify t) <= 1)%nat.
Proof.
  intros Hr t. unfold t. rewrite call_fetch_trace.
  destruct (fetch_url_returns env url USER_AGENT timeout retries)
    as [[pageRaw contentType] Hv].
  rewrite Hv, after_fetch_trace.
  pose proof (floor_nonneg retries Hr) as H0.
  pose proof (floor_le_ceiling retries) as Hfc.
  destruct (loop_effect_bounds env url USER_AGENT timeout retries
              (Z.to_nat (Qfloor retries + 1)) 0 None) as [Hc Hp].
  fold (fetch_url env url USER_AGENT timeout retries) in Hc, Hp.
  rewrite count_requests_app, total_pause_app, filter_app, length_app.
  unfold fetch_url at 3. rewrite loop_no_simplify.
  destruct (_ && _); unfold count_requests in *;
    cbn [filter is_request is_simplify total_pause List.length Nat.add];
    repeat split; lia.
Qed.

Variable is_url : string -> bool.
Variable JSON_stringify : list Zod.Issue -> string.

(** X20.  Whatever the request and whatever the network does, one tool
    call makes at most 6 HTTP requests, spends at most 5 seconds in
    pauses between attempts and runs the simplifier at most once. *)
Theorem handler_effect_bounds (request : ToolCall) :
  let t := trace (handle_call_tool env is_url JSON_stringify request) in
  count_requests t <= 6
  /\ total_pause t <= 5000
  /\ (List.length (filter is_simplify t) <= 1)%nat.
Proof.
  destruct request as [name [args|]]; cbn zeta;
    [|cbn; repeat split; lia].
  destruct (String.eqb_spec name "fetch") as [->|Hne].
  - destruct (FetchSchema_parse is_url args) as [issues|a] eqn:Hp.
    + unfold handle_call_tool. cbn [arguments tool].
      change (String.eqb "fetch" "fetch") with true. cbn iota.
      rewrite Hp. cbn. repeat split; lia.
    + rewrite (handle_accepted env is_url JSON_stringify "fetch" args a
                 eq_refl Hp). cbn [trace snd].
      destruct (FetchSchema_parse_bounds is_url args a Hp)
        as (_ & _ & _ & _ & Hn0 & Hn5).
      pose proof (call_fetch_effect_bounds (arg_url a) (arg_max_length a)
                    (arg_start_index a) (arg_raw a) (arg_timeout a)
                    (arg_retries a) Hn0) as (Hc & Hpause & Hs).
      assert (Qfloor (arg_retries a) <= 5) as Hf
        by (rewrite <- (floor_int 5); now apply Qfloor_resp_le).
      assert (Qceiling (arg_retries a) <= 5) as Hce
        by (rewrite <- (ceiling_int 5); now apply Qceiling_resp_le).
      fold (trace (call_fetch env (arg_url a) (arg_max_length a)
                     (arg_start_index a) (arg_raw a) (arg_timeout a)
                     (arg_retries a))).
      repeat split; lia.
  - unfold handle_call_tool. cbn [arguments tool].
    destruct (String.eqb_spec name "fetch"); [contradiction|].
    cbn. repeat split; lia.
Qed.

End EffectBounds.

Lemma handler_throws_before_network_witness :
  let request :=
    mkToolCall "fetch" (Some (object_of [("url", JsonNumber (Js.int 7))])) in
  let run :=
    handle_call_tool (always network_down) (fun _ => true) (fun _ => "[...]")
      request in
  value run = Throws (mkError "Error" "Invalid input: [...]")
  /\ trace run = [].
Proof.
  split; [reflexivity|].
  apply (handler_throws_before_network (always network_down) (fun _ => true)
           (fun _ => "[...]")
           (mkToolCall "fetch"
              (Some (object_of [("url", JsonNumber (Js.int 7))])))
           (mkError "Error" "Invalid input: [...]") eq_refl).
Defined.

Lemma handler_calls_validated_witness :
  let request :=
    mkToolCall "fetch"
      (Some (object_of [("url", JsonString "http://a.example/");
                        ("max_length", JsonNumber (Js.int 100))])) in
  let run :=
    handle_call_tool (always (Responded 200 (Some "text/plain") "hello"))
      (fun _ => true) (fun _ => "[...]") request in
  value run
  = Returns (text_result
               (envelope "text/plain" 5 "http://a.example/" "hello"))
  /\ exists a, arg_max_length a = Js.int 100 /\ arg_retries a = Js.int 2
               /\ (Js.int 0 < arg_max_length a < Js.int 1000000)%Q.
Proof.
  intros request run. split; [reflexivity|].
  destruct (handler_calls_validated
              (always (Responded 200 (Some "text/plain") "hello"))
              (fun _ => true) (fun _ => "[...]") request
              (text_result
                 (envelope "text/plain" 5 "http://a.example/" "hello"))
              eq_refl)
    as (args & a & Ha & _ & Hp & _ & Hm & _).
  exists a. injection Ha as <-.
  vm_compute in Hp. injection Hp as <-.
  repeat split.
Defined.

Section HtmlPath.

Variable env : Environment.
Variable url : string.
Variables maxLength startIndex : Js.number.
Variables timeout retries : Js.number.

Local Abbreviation fetched := (fetch_url env url USER_AGENT timeout retries).
Local Abbreviation run :=
  (call_fetch env url maxLength startIndex false timeout retries).

(** X21.  A 2xx response that declares no content type (no header, or an
    empty one) counts as HTML: outside raw mode its non-empty body always
    goes through the simplifier, the [Content-Type] line of the answer is
    empty, and the size and the pages are those of the simplified
    text. *)
Theorem untyped_response_simplified (k status : Z) (header : option string)
    (body : string) :
  0 <= k /\ (Js.int k <= retries)%Q ->
  (forall j, 0 <= j < k -> NetworkFailure (net env j)) ->
  net env k = Responded status header body ->
  response_ok status = true ->
  header = None \/ header = Some "" ->
  body <> "" ->
  value run
  = text_result
      (envelope "" (Js.length (extractContentFromHtml env body)) url
         (paginate (extractContentFromHtml env body) startIndex maxLength))
  /\ trace run = (trace fetched ++ [Simplify body])%list.
Proof.
  intros [Hk Hkr] Hall Hn Hok Hh Hne. apply int_le_floor in Hkr.
  assert (value fetched = Some (body, "")) as Hv.
  { unfold fetch_url.
    rewrite (loop_eventual_success env url USER_AGENT timeout retries
               (Z.to_nat k) (Z.to_nat (Qfloor retries + 1)) 0 None status
               header body); try assumption; try lia.
    - now destruct Hh as [-> | ->].
    - intros j Hj. apply Hall. lia.
    - rewrite <- Hn. f_equal. lia. }
  assert (isPageHtml body "" = true) as Hhtml
      by (unfold isPageHtml; apply orb_true_r).
  split.
  - rewrite call_fetch_value, Hv, after_fetch_envelope;
      [|exact Hne|reflexivity].
    now rewrite Hhtml.
  - rewrite call_fetch_trace, Hv, after_fetch_trace, Hhtml.
    destruct body; [congruence|reflexivity].
Qed.

(** X22.  A failed simplification is paginated like any content: when
    the payload counts as HTML and Readability finds no article, the
    text that is measured and cut into pages is the 45 code units of
    [<e>Page failed to be simplified from HTML</e>]. *)
Theorem simplification_failure_paginated (pageRaw contentType : string) :
  value fetched = Some (pageRaw, contentType) ->
  pageRaw <> "" ->
  isBinary contentType = false ->
  isPageHtml pageRaw contentType = true ->
  Readability_parse env pageRaw = Ok None ->
  value run
  = text_result
      (envelope contentType 45 url
         (paginate "<e>Page failed to be simplified from HTML</e>"
            startIndex maxLength)).
Proof.
  intros Hv Hne Hb Hh Hp.
  rewrite call_fetch_value, Hv, after_fetch_envelope;
    [|exact Hne|now rewrite Hb].
  rewrite Hh. cbn [negb andb]. unfold extractContentFromHtml.
  now rewrite Hp.
Qed.

End HtmlPath.

Lemma untyped_response_simplified_witness :
  let env := always (Responded 200 None "{}") in
  ((0 <= 0 /\ (Js.int 0 <= Js.int 2)%Q)
   /\ (forall j, 0 <= j < 0 -> NetworkFailure (net env j))
   /\ net env 0 = Responded 200 None "{}"
   /\ response_ok 200 = true
   /\ "{}" <> "")
  /\ trace (call_fetch env "http://a.example/api" (Js.int 5000) (Js.int 0)
              false (Js.int 10000) (Js.int 2))
     = [Request "http://a.example/api" USER_AGENT (Js.int 10000) 0;
        Simplify "{}"].
Proof.
  intros env.
  assert (H : forall j, 0 <= j < 0 -> NetworkFailure (net env j))
    by (intros j Hj; lia).
  split; [repeat split; try discriminate; exact H|].
  apply (untyped_response_simplified env "http://a.example/api"
           (Js.int 5000) (Js.int 0) (Js.int 10000) (Js.int 2) 0 200 None "{}"
           ltac:(split; discriminate) H eq_refl eq_refl (or_introl eq_refl)
           ltac:(discriminate)).
Defined.

Lemma simplification_failure_paginated_witness :
  let env := always (Responded 200 (Some "text/html") "<p>x</p>") in
  (value (fetch_url env "http://a.example/" USER_AGENT (Js.int 10000)
            (Js.int 2))
   = Some ("<p>x</p>", "text/html")
   /\ "<p>x</p>" <> ""
   /\ isBinary "text/html" = false
   /\ isPageHtml "<p>x</p>" "text/html" = true
   /\ Readability_parse env "<p>x</p>" = Ok None)
  /\ value (call_fetch env "http://a.example/" (Js.int 10) (Js.int 40) false
              (Js.int 10000) (Js.int 2))
     = text_result
         (envelope "text/html" 45 "http://a.example/"
            (paginate "<e>Page failed to be simplified from HTML</e>"
               (Js.int 40) (Js.int 10))).
Proof.
  split; [repeat split; discriminate|].
  apply (simplification_failure_paginated
           (always (Responded 200 (Some "text/html") "<p>x</p>"))
           "http://a.example/" (Js.int 10) (Js.int 40) (Js.int 10000)
           (Js.int 2) "<p>x</p>" "text/html"
           eq_refl ltac:(discriminate) eq_refl eq_refl eq_refl).
Defined.
